(** * The weather widget of my-homepage (src/weather-widget.js)

    A shallow embedding of the [WeatherWidget] class and the properties its
    specification states about it.

    Conventions of the embedding.
    - A JavaScript number is a [number]: [NaN], an infinity, or a finite
      value given by its exact rational value.  [Math.round] and [toFixed]
      are defined by ECMAScript on the exact value of their argument, so
      their models are exact.  Subtraction is exact too, where binary64
      rounds, decimal literals of the source are taken at their decimal
      value, and [-0] is identified with [0].
    - An exception is a [Throw] in the [completion] type; the errors raised
      by the host ([TypeError], [SyntaxError]) are identified by their class.
    - The widget object and the part of the host it writes to (three
      [style.display] values, the content markup, the armed interval timers,
      the console) form the record [widget]; every method is a function on
      it, and what the host answers during one cycle is a [world].  The
      three elements of the page exist, and a cycle is run from its start to
      its end: the states at which it is suspended are listed by
      [init_suspended]. *)

From Stdlib Require Import ZArith QArith Qround Qabs String Ascii List Lia.
From Stdlib Require Import DecimalString DecimalN Lqa.
From stdpp Require Import base option list gmap.

Local Open Scope Z_scope.
Local Open Scope string_scope.

(** ** JavaScript values *)

Module JS.

Inductive number :=
  | NaN
  | Infinity (negative : bool)
  | Fin (q : Q).

(** [ToNumber] of a value that is a number or [undefined]. *)
Definition ToNumber (v : option number) : number :=
  match v with
  | Some n => n
  | None => NaN
  end.

(** [a - b] on numbers. *)
Definition sub (a b : number) : number :=
  match a, b with
  | NaN, _ | _, NaN => NaN
  | Infinity s, Infinity s' => if Bool.eqb s s' then NaN else Infinity s
  | Infinity s, Fin _ => Infinity s
  | Fin _, Infinity s => Infinity (negb s)
  | Fin x, Fin y => Fin (x - y)%Q
  end.

(** [Math.abs]. *)
Definition Math_abs (a : number) : number :=
  match a with
  | NaN => NaN
  | Infinity _ => Infinity false
  | Fin x => Fin (Qabs x)
  end.

(** [a < b] on numbers: false as soon as one side is [NaN]. *)
Definition lt (a b : number) : bool :=
  match a, b with
  | NaN, _ | _, NaN => false
  | Infinity s, Infinity s' => s && negb s'
  | Infinity s, Fin _ => s
  | Fin _, Infinity s => negb s
  | Fin x, Fin y => negb (Qle_bool y x)
  end.

(** [Math.round]: the integer closest to the argument, the one closer to
    plus infinity when two are equally close. *)
Definition Math_round (a : number) : number :=
  match a with
  | Fin x => Fin (inject_Z (Qfloor (x + (1 # 2))%Q))
  | _ => a
  end.

(** The decimal digits of a natural number. *)
Definition digits (n : N) : string :=
  DecimalString.NilZero.string_of_uint (N.to_uint n).

Fixpoint zeros (k : nat) : string :=
  match k with
  | O => ""
  | S k => String "0" (zeros k)
  end.

(** [Number.prototype.toFixed(f)] on [|x| < 10^21], where it writes fixed
    notation; [f] is between 0 and 100.  Under the sign, [n] is the integer
    for which [n / 10^f] is closest to [|x|], the larger one on a tie. *)
Definition toFixed (a : number) (f : nat) : string :=
  match a with
  | NaN => "NaN"
  | Infinity s => if s then "-Infinity" else "Infinity"
  | Fin x =>
      let s := if negb (Qle_bool 0%Q x) then "-" else "" in
      let x := Qabs x in
      let n := Qfloor (x * inject_Z (10 ^ Z.of_nat f) + (1 # 2))%Q in
      let m := digits (Z.to_N n) in
      let m :=
        if f is O then m
        else
          let k := String.length m in
          let m := if (k <=? f)%nat then zeros (f + 1 - k) ++ m else m in
          let k := String.length m in
          substring 0 (k - f) m ++ "." ++ substring (k - f) f m in
      s ++ m
  end.

(** The bound below which [toFixed] writes fixed notation. *)
Definition fixed_range (a : number) : Prop :=
  match a with
  | Fin x => (Qabs x < inject_Z (10 ^ 21))%Q
  | _ => True
  end.

(** [a || b] on strings-or-undefined: [undefined] and the empty string are
    the falsy values. *)
Definition or_else (a : option string) (b : string) : string :=
  match a with
  | Some s => if String.eqb s "" then b else s
  | None => b
  end.

(** What a [throw] carries: an [Error] built by the program, or one of the
    host's own errors. *)
Inductive error :=
  | Error (message : string)
  | TypeError
  | SyntaxError.

(** The outcome of evaluating an expression or a call. *)
Inductive completion (A : Type) :=
  | Normal (a : A)
  | Throw (e : error).
Arguments Normal {A} a.
Arguments Throw {A} e.

Definition bind {A B} (c : completion A) (k : A -> completion B)
  : completion B :=
  match c with
  | Normal a => k a
  | Throw e => Throw e
  end.

(** Reading a property of [o]: a [TypeError] when [o] is [undefined]. *)
Definition prop {R A} (o : option R) (field : R -> A) : completion A :=
  match o with
  | Some r => Normal (field r)
  | None => Throw TypeError
  end.

(** Calling a method of [o]: a [TypeError] when [o] is [undefined]. *)
Definition method {R A} (o : option R) (m : R -> A) : completion A :=
  prop o m.

(** A [Date] object: built from the clock by [new Date()], or from its
    argument by [new Date(arg)], which is an Invalid Date for [undefined]. *)
Inductive Date :=
  | Date_now (ms : Z)
  | Date_of (arg : option string).

End JS.

(** [x ← c; k] runs [k] on the value of [c], unless [c] throws. *)
#[global] Instance completion_ret : MRet JS.completion := @JS.Normal.
#[global] Instance completion_bind : MBind JS.completion :=
  fun A B k c => JS.bind c k.

(** ** WeatherPresenter: the two lookup tables *)

(** The object literal [iconMap]; its keys are the integer codes. *)
Definition iconMap : gmap Z string :=
  list_to_map
    [ (0, "☀️"); (1, "🌤️"); (2, "⛅"); (3, "☁️");
      (45, "🌫️"); (48, "🌫️");
      (51, "🌦️"); (53, "🌦️"); (55, "🌦️");
      (61, "🌧️"); (63, "🌧️"); (65, "🌧️");
      (71, "🌨️"); (73, "🌨️"); (75, "🌨️");
      (95, "⛈️"); (96, "⛈️"); (99, "⛈️") ].

(** [getWeatherIcon(weatherCode)], for a code that is an integer or
    [undefined]; [iconMap] has no key for [undefined]. *)
Definition getWeatherIcon (weatherCode : option Z) : string :=
  JS.or_else (weatherCode ≫= (iconMap !!.)) "🌤️".

(** The object literal [descriptions]. *)
Definition descriptions : gmap Z string :=
  list_to_map
    [ (0, "Clear sky"); (1, "Mainly clear"); (2, "Partly cloudy");
      (3, "Overcast");
      (45, "Foggy"); (48, "Foggy");
      (51, "Light drizzle"); (53, "Drizzle"); (55, "Heavy drizzle");
      (61, "Light rain"); (63, "Rain"); (65, "Heavy rain");
      (71, "Light snow"); (73, "Snow"); (75, "Heavy snow");
      (95, "Thunderstorm"); (96, "Thunderstorm");
      (99, "Severe thunderstorm") ].

(** [getWeatherDescription(weatherCode)]. *)
Definition getWeatherDescription (weatherCode : option Z) : string :=
  JS.or_else (weatherCode ≫= (descriptions !!.)) "Unknown".

(** The codes of the table, in the order of the source. *)
Definition table_codes : list Z :=
  [0; 1; 2; 3; 45; 48; 51; 53; 55; 61; 63; 65; 71; 73; 75; 95; 96; 99].

(** ** Configuration *)

(** [this.config]. *)
Record config := {
  defaultLat : JS.number;
  defaultLon : JS.number;
  units : string;
  updateInterval : Z
}.

(** The [options] argument of the constructor: each key present or not. *)
Record options := {
  opt_defaultLat : option JS.number;
  opt_defaultLon : option JS.number;
  opt_units : option string;
  opt_updateInterval : option Z
}.

Definition no_options : options :=
  {| opt_defaultLat := None; opt_defaultLon := None;
     opt_units := None; opt_updateInterval := None |}.

(** The defaults of the constructor, overridden by [...options]. *)
Definition make_config (o : options) : config :=
  {| defaultLat := default (JS.Fin 47.6062%Q) (opt_defaultLat o);
     defaultLon := default (JS.Fin (-122.3321)%Q) (opt_defaultLon o);
     units := default "celsius" (opt_units o);
     updateInterval := default (10 * 60 * 1000) (opt_updateInterval o) |}.

(** ** WeatherClient: the response body and the snapshot *)

(** The body of the forecast response as [response.json()] delivers it: an
    object in which every expected field is either present, with the type
    the API documents, or absent ([None], read as [undefined]). *)
Record current_weather_t := {
  temperature_f : option JS.number;
  windspeed_f : option JS.number;
  winddirection_f : option JS.number;
  weathercode_f : option Z;
  time_f : option string
}.

Record hourly_t := {
  relative_humidity_2m : option (list JS.number)
}.

Record daily_t := {
  sunrise_f : option (list string);
  sunset_f : option (list string)
}.

Record body := {
  latitude : option JS.number;
  longitude : option JS.number;
  current_weather : option current_weather_t;
  hourly : option hourly_t;
  daily : option daily_t
}.

(** The object [processWeatherData] returns. *)
Record snapshot := {
  temperature : JS.number;
  windSpeed : JS.number;
  windDirection : option JS.number;
  weatherCode : option Z;
  time : JS.Date;
  humidity : option JS.number;
  sunrise : JS.Date;
  sunset : JS.Date;
  location : string
}.

(** [getLocationName(lat, lon)].  The first test fails on an [undefined]
    coordinate (its difference is [NaN]), and [toFixed] is then called on
    [undefined]. *)
Definition getLocationName (lat lon : option JS.number) : JS.completion string :=
  if JS.lt (JS.Math_abs (JS.sub (JS.ToNumber lat) (JS.Fin 47.6062%Q)))
           (JS.Fin 0.1%Q)
     && JS.lt (JS.Math_abs (JS.sub (JS.ToNumber lon) (JS.Fin (-122.3321)%Q)))
              (JS.Fin 0.1%Q)
  then JS.Normal "Seattle, WA"
  else
    a ← JS.method lat (fun x => JS.toFixed x 1);
    b ← JS.method lon (fun x => JS.toFixed x 1);
    JS.Normal (a ++ "°, " ++ b ++ "°").

(** [processWeatherData(data)]; the fields of the object literal are
    evaluated in the order of the source. *)
Definition processWeatherData (data : body) : JS.completion snapshot :=
  let current := current_weather data in
  let hourly := hourly data in
  let daily := daily data in
  temperature ← JS.prop current temperature_f;
  windspeed ← JS.prop current windspeed_f;
  winddirection ← JS.prop current winddirection_f;
  weathercode ← JS.prop current weathercode_f;
  time ← JS.prop current time_f;
  humidity_series ← JS.prop hourly relative_humidity_2m;
  humidity ← JS.prop humidity_series (fun l => l !! 0%nat);
  sunrise_series ← JS.prop daily sunrise_f;
  sunrise ← JS.prop sunrise_series (fun l => l !! 0%nat);
  sunset_series ← JS.prop daily sunset_f;
  sunset ← JS.prop sunset_series (fun l => l !! 0%nat);
  location ← getLocationName (latitude data) (longitude data);
  JS.Normal
    {| temperature := JS.Math_round (JS.ToNumber temperature);
       windSpeed := JS.Math_round (JS.ToNumber windspeed);
       windDirection := winddirection;
       weatherCode := weathercode;
       time := JS.Date_of time;
       humidity := humidity;
       sunrise := JS.Date_of sunrise;
       sunset := JS.Date_of sunset;
       location := location |}.

(** ** The host *)

(** How [getCurrentPosition] answers: it calls the success callback with a
    position, or the error callback with one of the codes of the
    Geolocation API ([TIMEOUT] after the 5000 ms of the [timeout] option). *)
Inductive position_error := PERMISSION_DENIED | POSITION_UNAVAILABLE | TIMEOUT.

Inductive geolocation_answer :=
  | Position (coords_latitude coords_longitude : JS.number)
  | PositionError (code : position_error).

(** The query of the request [fetchWeather] sends. *)
Record request := {
  req_url : string;
  req_latitude : JS.number;
  req_longitude : JS.number;
  req_current_weather : bool;
  req_hourly : string;
  req_daily : string;
  req_timezone : string
}.

(** A response: its status, and what [response.json()] gives, [None] when
    the body is not JSON. *)
Record response := {
  status : Z;
  json : option body
}.

(** [response.ok]: the status is in the range 200-299. *)
Definition ok (r : response) : bool :=
  (200 <=? status r)%Z && (status r <=? 299)%Z.

(** What [fetch] does: the promise rejects (the transport failed) or
    resolves to a response. *)
Inductive fetch_answer :=
  | Rejected
  | Resolved (r : response).

(** What the host presents to one run of [init]: [navigator.geolocation]
    ([None] when the host has no such capability) with its answer, the
    network, the clock read by [new Date()] in [fetchWeather], and the
    string [toLocaleTimeString] gives in [render]. *)
Record world := {
  navigator_geolocation : option geolocation_answer;
  fetch : request -> fetch_answer;
  clock : Z;
  toLocaleTimeString : string
}.

(** ** The widget *)

(** What [render] interpolates into the markup of [contentEl]. *)
Record view := {
  view_location : string;
  view_time : string;
  view_temperature : JS.number;
  view_icon : string;
  view_description : string;
  view_humidity : option JS.number;
  view_windSpeed : JS.number
}.

(** The widget and the part of the host it writes: the [style.display] of
    its three elements, the content of [contentEl] ([None]: the markup of
    the page), the interval timers armed by [setInterval] (each calls
    [init]; a timer is listed by its delay), the calls made to
    [getCurrentPosition] (each listed by its [timeout] option), and what
    was passed to [console.error]. *)
Record widget := {
  the_config : config;
  apiUrl : string;
  lastUpdate : option JS.Date;
  loadingEl_display : string;
  contentEl_display : string;
  errorEl_display : string;
  contentEl_innerHTML : option view;
  interval_timers : list Z;
  geolocation_calls : list Z;
  console_error : list JS.error
}.

Definition set_display (l c e : string) (w : widget) : widget :=
  {| the_config := the_config w; apiUrl := apiUrl w;
     lastUpdate := lastUpdate w;
     loadingEl_display := l; contentEl_display := c; errorEl_display := e;
     contentEl_innerHTML := contentEl_innerHTML w;
     interval_timers := interval_timers w;
     geolocation_calls := geolocation_calls w;
     console_error := console_error w |}.

Definition showLoading (w : widget) : widget := set_display "block" "none" "none" w.
Definition showContent (w : widget) : widget := set_display "none" "block" "none" w.
Definition showError (w : widget) : widget := set_display "none" "none" "block" w.

Definition set_lastUpdate (d : JS.Date) (w : widget) : widget :=
  {| the_config := the_config w; apiUrl := apiUrl w;
     lastUpdate := Some d;
     loadingEl_display := loadingEl_display w;
     contentEl_display := contentEl_display w;
     errorEl_display := errorEl_display w;
     contentEl_innerHTML := contentEl_innerHTML w;
     interval_timers := interval_timers w;
     geolocation_calls := geolocation_calls w;
     console_error := console_error w |}.

Definition set_innerHTML (v : view) (w : widget) : widget :=
  {| the_config := the_config w; apiUrl := apiUrl w;
     lastUpdate := lastUpdate w;
     loadingEl_display := loadingEl_display w;
     contentEl_display := contentEl_display w;
     errorEl_display := errorEl_display w;
     contentEl_innerHTML := Some v;
     interval_timers := interval_timers w;
     geolocation_calls := geolocation_calls w;
     console_error := console_error w |}.

Definition setInterval (delay : Z) (w : widget) : widget :=
  {| the_config := the_config w; apiUrl := apiUrl w;
     lastUpdate := lastUpdate w;
     loadingEl_display := loadingEl_display w;
     contentEl_display := contentEl_display w;
     errorEl_display := errorEl_display w;
     contentEl_innerHTML := contentEl_innerHTML w;
     interval_timers := interval_timers w ++ [delay];
     geolocation_calls := geolocation_calls w;
     console_error := console_error w |}.

Definition getCurrentPosition (timeout : Z) (w : widget) : widget :=
  {| the_config := the_config w; apiUrl := apiUrl w;
     lastUpdate := lastUpdate w;
     loadingEl_display := loadingEl_display w;
     contentEl_display := contentEl_display w;
     errorEl_display := errorEl_display w;
     contentEl_innerHTML := contentEl_innerHTML w;
     interval_timers := interval_timers w;
     geolocation_calls := geolocation_calls w ++ [timeout];
     console_error := console_error w |}.

Definition log_error (e : JS.error) (w : widget) : widget :=
  {| the_config := the_config w; apiUrl := apiUrl w;
     lastUpdate := lastUpdate w;
     loadingEl_display := loadingEl_display w;
     contentEl_display := contentEl_display w;
     errorEl_display := errorEl_display w;
     contentEl_innerHTML := contentEl_innerHTML w;
     interval_timers := interval_timers w;
     geolocation_calls := geolocation_calls w;
     console_error := console_error w ++ [e] |}.

(** The object [getLocation] resolves to. *)
Record coords := { lat : JS.number; lon : JS.number }.

(** [getLocation()]: the widget after the call and the coordinates the
    promise resolves to.  The executor of the promise takes [resolve] only
    and calls it on each of its three paths: there is no [Throw] here. *)
Definition getLocation (h : world) (w : widget) : widget * coords :=
  match navigator_geolocation h with
  | Some answer =>
      let w := getCurrentPosition 5000 w in
      match answer with
      | Position coords_latitude coords_longitude =>
          (w, {| lat := coords_latitude; lon := coords_longitude |})
      | PositionError _ =>
          (w, {| lat := defaultLat (the_config w);
                 lon := defaultLon (the_config w) |})
      end
  | None =>
      (w, {| lat := defaultLat (the_config w);
             lon := defaultLon (the_config w) |})
  end.

(** The request of [fetchWeather]: [apiUrl] and the query [params]. *)
Definition forecast_request (w : widget) (lat lon : JS.number) : request :=
  {| req_url := apiUrl w;
     req_latitude := lat;
     req_longitude := lon;
     req_current_weather := true;
     req_hourly := "temperature_2m,relative_humidity_2m,wind_speed_10m";
     req_daily := "sunrise,sunset";
     req_timezone := "auto" |}.

(** [fetchWeather(lat, lon)]. *)
Definition fetchWeather (h : world) (w : widget) (lat lon : JS.number)
  : widget * JS.completion snapshot :=
  match fetch h (forecast_request w lat lon) with
  | Rejected => (w, JS.Throw JS.TypeError)
  | Resolved response =>
      if negb (ok response)
      then (w, JS.Throw (JS.Error ("Weather API error: "
                                   ++ JS.digits (Z.to_N (status response)))))
      else
        match json response with
        | None => (w, JS.Throw JS.SyntaxError)
        | Some data =>
            let w := set_lastUpdate (JS.Date_now (clock h)) w in
            (w, processWeatherData data)
        end
  end.

(** [render(weatherData)]. *)
Definition render (h : world) (weatherData : snapshot) (w : widget) : widget :=
  let timeString := toLocaleTimeString h in
  set_innerHTML
    {| view_location := location weatherData;
       view_time := timeString;
       view_temperature := temperature weatherData;
       view_icon := getWeatherIcon (weatherCode weatherData);
       view_description := getWeatherDescription (weatherCode weatherData);
       view_humidity := humidity weatherData;
       view_windSpeed := windSpeed weatherData |} w.

(** [setupAutoRefresh()]. *)
Definition setupAutoRefresh (w : widget) : widget :=
  setInterval (updateInterval (the_config w)) w.

(** [init()]: one refresh cycle, run to its end. *)
Definition init (h : world) (w : widget) : widget :=
  let w := showLoading w in
  let '(w, coords) := getLocation h w in
  let '(w, fetched) := fetchWeather h w (lat coords) (lon coords) in
  match fetched with
  | JS.Normal weatherData =>
      let w := render h weatherData w in
      let w := showContent w in
      setupAutoRefresh w
  | JS.Throw error =>
      let w := log_error error w in
      showError w
  end.

(** The page the widget is built on: the [style.display] its three
    elements have, whatever the style sheet gave them. *)
Record page := {
  page_loading : string;
  page_content : string;
  page_error : string
}.

(** The fields set by the constructor, before it calls [init]. *)
Definition fields (pg : page) (o : options) : widget :=
  {| the_config := make_config o;
     apiUrl := "https://api.open-meteo.com/v1/forecast";
     lastUpdate := None;
     loadingEl_display := page_loading pg;
     contentEl_display := page_content pg;
     errorEl_display := page_error pg;
     contentEl_innerHTML := None;
     interval_timers := [];
     geolocation_calls := [];
     console_error := [] |}.

(** [new WeatherWidget(containerId, options)], with its first cycle. *)
Definition new_WeatherWidget (pg : page) (o : options) (h : world) : widget :=
  init h (fields pg o).

(** ** Running the widget *)

(** The states of a cycle at which it is suspended ([await]) and other code
    of the page can run: after [showLoading], waiting for the location, after
    [getLocation], waiting for the forecast, and after [fetchWeather],
    before [init] is resumed with its result. *)
Definition init_suspended (h : world) (w : widget) : list widget :=
  let w1 := showLoading w in
  let '(w2, coords) := getLocation h w1 in
  let '(w3, _) := fetchWeather h w2 (lat coords) (lon coords) in
  [w1; w2; w3].

(** The forecast a cycle obtains: its snapshot, or what it throws. *)
Definition cycle_result (h : world) (w : widget) : JS.completion snapshot :=
  let '(w1, c) := getLocation h (showLoading w) in
  (fetchWeather h w1 (lat c) (lon c)).2.

(** One firing of an armed interval timer runs [init] once more. *)
Inductive fires : widget -> widget -> Prop :=
  | fires_init (h : world) (w : widget) (delay : Z) :
      delay ∈ interval_timers w -> fires w (init h w).

(** The states the widget built on page [pg] with [o] goes through, cycle
    after cycle. *)
Inductive reachable (pg : page) (o : options) : widget -> Prop :=
  | reachable_new (h : world) : reachable pg o (new_WeatherWidget pg o h)
  | reachable_fires (w w' : widget) :
      reachable pg o w -> fires w w' -> reachable pg o w'.

(** An element is shown unless its [style.display] is ['none']. *)
Definition visible (display : string) : bool :=
  negb (String.eqb display "none").

Inductive DisplayState := Loading | Content | Failed.

(** The display is in state [s]: the element of [s] is shown, the other
    two are hidden. *)
Definition displays (w : widget) (s : DisplayState) : Prop :=
  match s with
  | Loading =>
      visible (loadingEl_display w) = true
      /\ visible (contentEl_display w) = false
      /\ visible (errorEl_display w) = false
  | Content =>
      visible (loadingEl_display w) = false
      /\ visible (contentEl_display w) = true
      /\ visible (errorEl_display w) = false
  | Failed =>
      visible (loadingEl_display w) = false
      /\ visible (contentEl_display w) = false
      /\ visible (errorEl_display w) = true
  end.

(** The number of elements shown. *)
Definition shown (w : widget) : nat :=
  length (List.filter visible
            [loadingEl_display w; contentEl_display w; errorEl_display w]).

(** Two widgets with the same three [style.display] values. *)
Definition same_display (w w' : widget) : Prop :=
  loadingEl_display w' = loadingEl_display w
  /\ contentEl_display w' = contentEl_display w
  /\ errorEl_display w' = errorEl_display w.

(** ** Sample inputs *)

(** A complete forecast body. *)
Definition sample_body : body :=
  {| latitude := Some (JS.Fin 47.6%Q);
     longitude := Some (JS.Fin (-122.3)%Q);
     current_weather :=
       Some {| temperature_f := Some (JS.Fin 21.6%Q);
               windspeed_f := Some (JS.Fin 7.4%Q);
               winddirection_f := Some (JS.Fin 230%Q);
               weathercode_f := Some 61;
               time_f := Some "2024-05-01T12:00" |};
     hourly :=
       Some {| relative_humidity_2m :=
                 Some [JS.Fin 65%Q; JS.Fin 70%Q; JS.Fin 72%Q] |};
     daily :=
       Some {| sunrise_f := Some ["2024-05-01T05:52"];
               sunset_f := Some ["2024-05-01T20:21"] |} |}.

(** A host without geolocation permission whose network delivers
    [sample_body]. *)
Definition online : world :=
  {| navigator_geolocation := Some (PositionError PERMISSION_DENIED);
     fetch := fun _ => Resolved {| status := 200; json := Some sample_body |};
     clock := 1714590000000;
     toLocaleTimeString := "12:00 PM" |}.

(** The same host with the network down. *)
Definition offline : world :=
  {| navigator_geolocation := Some (PositionError PERMISSION_DENIED);
     fetch := fun _ => Rejected;
     clock := 1714590000000;
     toLocaleTimeString := "12:00 PM" |}.

(** A page that sets no inline [display] on the three elements. *)
Definition plain_page : page :=
  {| page_loading := ""; page_content := ""; page_error := "" |}.

(** ** Well-formed bodies and populated snapshots *)

Definition present {A} (o : option A) : bool :=
  match o with
  | Some _ => true
  | None => false
  end.


(** The three series of the body, [None] when the series or the object
    that holds it is absent. *)
Definition humidity_series (data : body) : option (list JS.number) :=
  hourly data ≫= relative_humidity_2m.
Definition sunrise_series (data : body) : option (list string) :=
  daily data ≫= sunrise_f.
Definition sunset_series (data : body) : option (list string) :=
  daily data ≫= sunset_f.

(** The body has the objects and arrays [processWeatherData] reads from,
    and both coordinates. *)
Definition structure_present (data : body) : bool :=
  present (current_weather data)
  && present (humidity_series data)
  && present (sunrise_series data)
  && present (sunset_series data)
  && present (latitude data)
  && present (longitude data).




(** [sample_body] without [current_weather.temperature]. *)
Definition body_without_temperature : body :=
  {| latitude := latitude sample_body;
     longitude := longitude sample_body;
     current_weather :=
       Some {| temperature_f := None;
               windspeed_f := Some (JS.Fin 7.4%Q);
               winddirection_f := Some (JS.Fin 230%Q);
               weathercode_f := Some 61;
               time_f := Some "2024-05-01T12:00" |};
     hourly := hourly sample_body;
     daily := daily sample_body |}.

(** [sample_body] without [current_weather]. *)
Definition body_without_current : body :=
  {| latitude := latitude sample_body;
     longitude := longitude sample_body;
     current_weather := None;
     hourly := hourly sample_body;
     daily := daily sample_body |}.

(** A host whose network delivers [data] with status 200. *)
Definition delivering (data : body) : world :=
  {| navigator_geolocation := None;
     fetch := fun _ => Resolved {| status := 200; json := Some data |};
     clock := 1714590000000;
     toLocaleTimeString := "12:00 PM" |}.

(** A host whose forecast reports the coordinates it was asked for. *)
Definition echoing : world :=
  {| navigator_geolocation := None;
     fetch := fun req =>
       Resolved
         {| status := 200;
            json := Some {| latitude := Some (req_latitude req);
                            longitude := Some (req_longitude req);
                            current_weather := current_weather sample_body;
                            hourly := hourly sample_body;
                            daily := daily sample_body |} |};
     clock := 1714590000000;
     toLocaleTimeString := "12:00 PM" |}.

(** Options that configure New York as the default location. *)
Definition new_york_options : options :=
  {| opt_defaultLat := Some (JS.Fin 40.7128%Q);
     opt_defaultLon := Some (JS.Fin (-74.006)%Q);
     opt_units := None;
     opt_updateInterval := None |}.

(** What [processWeatherData] makes of [sample_body]. *)
Definition sample_snapshot : snapshot :=
  {| temperature := JS.Fin 22%Q;
     windSpeed := JS.Fin 7%Q;
     windDirection := Some (JS.Fin 230%Q);
     weatherCode := Some 61;
     time := JS.Date_of (Some "2024-05-01T12:00");
     humidity := Some (JS.Fin 65%Q);
     sunrise := JS.Date_of (Some "2024-05-01T05:52");
     sunset := JS.Date_of (Some "2024-05-01T20:21");
     location := "Seattle, WA" |}.

(** A body that reports the coordinates of New York. *)
Definition new_york_body : body :=
  {| latitude := Some (JS.Fin 40.7128%Q);
     longitude := Some (JS.Fin (-74.006)%Q);
     current_weather := current_weather sample_body;
     hourly := hourly sample_body;
     daily := daily sample_body |}.

(** [z] is an integer closest to [q]. *)
Definition nearest_integer (z : Z) (q : Q) : Prop :=
  forall k : Z, (Qabs (inject_Z z - q) <= Qabs (inject_Z k - q))%Q.

(** The table of descriptions as the specification words it. *)
Definition spec_descriptions : list (Z * string) :=
  [ (0, "Clear sky"); (1, "Mainly clear"); (2, "Partly cloudy");
    (3, "Overcast");
    (45, "Foggy"); (48, "Foggy");
    (51, "Light drizzle"); (53, "Moderate drizzle"); (55, "Dense drizzle");
    (61, "Light rain"); (63, "Moderate rain"); (65, "Heavy rain");
    (71, "Light snow"); (73, "Moderate snow"); (75, "Heavy snow");
    (95, "Thunderstorm");
    (96, "Thunderstorm with hail"); (99, "Thunderstorm with hail") ].

(** ** Further definitions *)

(** The glyphs of [iconMap], code by code, as the source lists them. *)
Definition icon_rows : list (Z * string) :=
  [ (0, "☀️"); (1, "🌤️"); (2, "⛅"); (3, "☁️");
    (45, "🌫️"); (48, "🌫️");
    (51, "🌦️"); (53, "🌦️"); (55, "🌦️");
    (61, "🌧️"); (63, "🌧️"); (65, "🌧️");
    (71, "🌨️"); (73, "🌨️"); (75, "🌨️");
    (95, "⛈️"); (96, "⛈️"); (99, "⛈️") ].

(** Whether an evaluation returned. *)
Definition returned {A} (c : JS.completion A) : bool :=
  match c with
  | JS.Normal _ => true
  | JS.Throw _ => false
  end.

(** A sequence of cycles, one per host state, oldest first. *)
Definition run (hs : list world) (w : widget) : widget :=
  fold_left (fun w h => init h w) hs w.

(** The view [render] writes for a snapshot. *)
Definition view_of (h : world) (weatherData : snapshot) : view :=
  {| view_location := location weatherData;
     view_time := toLocaleTimeString h;
     view_temperature := temperature weatherData;
     view_icon := getWeatherIcon (weatherCode weatherData);
     view_description := getWeatherDescription (weatherCode weatherData);
     view_humidity := humidity weatherData;
     view_windSpeed := windSpeed weatherData |}.

(** The handler of [DOMContentLoaded]: [new WeatherWidget('weather-widget')],
    without options. *)
Definition on_DOMContentLoaded (pg : page) (h : world) : widget :=
  new_WeatherWidget pg no_options h.

(** The body with each series cut down to its first element. *)
Definition first_only (data : body) : body :=
  {| latitude := latitude data;
     longitude := longitude data;
     current_weather := current_weather data;
     hourly :=
       (fun hr => {| relative_humidity_2m := take 1 <$> relative_humidity_2m hr |})
         <$> hourly data;
     daily :=
       (fun dl => {| sunrise_f := take 1 <$> sunrise_f dl;
                     sunset_f := take 1 <$> sunset_f dl |})
         <$> daily data |}.

(** A digit put in front of a number written lowest digit first. *)
Definition Dn (b : N) (d : Decimal.uint) : Decimal.uint :=
  match b with
  | 0 => Decimal.D0 d | 1 => Decimal.D1 d | 2 => Decimal.D2 d | 3 => Decimal.D3 d | 4 => Decimal.D4 d
  | 5 => Decimal.D5 d | 6 => Decimal.D6 d | 7 => Decimal.D7 d | 8 => Decimal.D8 d | _ => Decimal.D9 d
  end%N.

(** A host whose network answers every request with [status] and a body
    that is not JSON. *)
Definition answering (status : Z) : world :=
  {| navigator_geolocation := None;
     fetch := fun _ => Resolved {| status := status; json := None |};
     clock := 1714590000000;
     toLocaleTimeString := "12:00 PM" |}.

(** Whether the cycle run on [h] gets a body: the request for the
    coordinates it resolves is answered by a successful response whose body
    is JSON. *)
Definition body_parsed (h : world) (w : widget) : bool :=
  let c := (getLocation h w).2 in
  match fetch h (forecast_request w (lat c) (lon c)) with
  | Resolved r => ok r && present (json r)
  | Rejected => false
  end.

(** * Properties *)

(** ** The functions on sample values *)

Example icon_61 : getWeatherIcon (Some 61) = "🌧️".
Proof. vm_compute. reflexivity. Qed.

Example descr_53 : getWeatherDescription (Some 53) = "Drizzle".
Proof. vm_compute. reflexivity. Qed.

Example toFixed_ex1 : JS.toFixed (JS.Fin 40.7128%Q) 1 = "40.7".
Proof. vm_compute. reflexivity. Qed.
Example toFixed_ex2 : JS.toFixed (JS.Fin (-74.006)%Q) 1 = "-74.0".
Proof. vm_compute. reflexivity. Qed.
Example toFixed_ex3 : JS.toFixed (JS.Fin (-0.04)%Q) 1 = "-0.0".
Proof. vm_compute. reflexivity. Qed.
Example toFixed_ex4 : JS.toFixed (JS.Fin (0.05)%Q) 1 = "0.1".
Proof. vm_compute. reflexivity. Qed.
Example toFixed_ex5 : JS.toFixed (JS.Fin (123.456)%Q) 0 = "123".
Proof. vm_compute. reflexivity. Qed.
Example toFixed_ex6 : JS.toFixed (JS.Fin (0.00449)%Q) 2 = "0.00".
Proof. vm_compute. reflexivity. Qed.
Example toFixed_ex7 : JS.toFixed (JS.Fin 9.96%Q) 1 = "10.0".
Proof. vm_compute. reflexivity. Qed.
Example toFixed_ex8 : JS.toFixed (JS.Fin 0%Q) 1 = "0.0".
Proof. vm_compute. reflexivity. Qed.
Example toFixed_ex9 : JS.toFixed (JS.Fin (-122.3321)%Q) 1 = "-122.3".
Proof. vm_compute. reflexivity. Qed.
Example round_ex : JS.Math_round (JS.Fin 21.6%Q) = JS.Fin 22%Q.
Proof. vm_compute. reflexivity. Qed.
Example round_ex2 : JS.Math_round (JS.Fin (-2.5)%Q) = JS.Fin (-2)%Q.
Proof. vm_compute. reflexivity. Qed.
Example label_ex1 :
  getLocationName (Some (JS.Fin 47.65%Q)) (Some (JS.Fin (-122.3)%Q))
  = JS.Normal "Seattle, WA".
Proof. vm_compute. reflexivity. Qed.
Example label_ex2 :
  getLocationName (Some (JS.Fin 47.68%Q)) (Some (JS.Fin (-122.5)%Q))
  = JS.Normal "47.7°, -122.5°".
Proof. vm_compute. reflexivity. Qed.
Example label_ex3 :
  getLocationName (Some (JS.Fin 47.65%Q)) None = JS.Throw JS.TypeError.
Proof. vm_compute. reflexivity. Qed.

(** ** WeatherPresenter *)

(** Both tables have the keys [table_codes], and no other. *)
Lemma iconMap_dom : dom iconMap = list_to_set table_codes.
Proof. unfold iconMap. rewrite dom_list_to_map_L. reflexivity. Qed.

Lemma descriptions_dom : dom descriptions = list_to_set table_codes.
Proof. unfold descriptions. rewrite dom_list_to_map_L. reflexivity. Qed.

Lemma iconMap_miss (c : Z) : c ∉ table_codes -> iconMap !! c = None.
Proof.
  intros Hc. apply not_elem_of_dom. rewrite iconMap_dom.
  rewrite elem_of_list_to_set. exact Hc.
Qed.

Lemma descriptions_miss (c : Z) : c ∉ table_codes -> descriptions !! c = None.
Proof.
  intros Hc. apply not_elem_of_dom. rewrite descriptions_dom.
  rewrite elem_of_list_to_set. exact Hc.
Qed.

(** C1, as the code has it: for every weather code of the table,
    [getWeatherDescription] returns the description of the source's table:
    0 Clear sky, 1 Mainly clear, 2 Partly cloudy, 3 Overcast, 45 and 48
    Foggy, 51/53/55 Light drizzle, Drizzle, Heavy drizzle, 61/63/65 Light
    rain, Rain, Heavy rain, 71/73/75 Light snow, Snow, Heavy snow, 95 and 96
    Thunderstorm, 99 Severe thunderstorm. *)
Theorem description_table :
  Forall (fun entry => getWeatherDescription (Some entry.1) = entry.2)
    [ (0, "Clear sky"); (1, "Mainly clear"); (2, "Partly cloudy");
      (3, "Overcast");
      (45, "Foggy"); (48, "Foggy");
      (51, "Light drizzle"); (53, "Drizzle"); (55, "Heavy drizzle");
      (61, "Light rain"); (63, "Rain"); (65, "Heavy rain");
      (71, "Light snow"); (73, "Snow"); (75, "Heavy snow");
      (95, "Thunderstorm"); (96, "Thunderstorm");
      (99, "Severe thunderstorm") ].
Proof.
  repeat (apply Forall_cons; split; [vm_compute; reflexivity |]).
  apply Forall_nil. exact I.
Qed.

(** C1, as the specification words it, fails: the specification's table has
    "Moderate drizzle" at code 53, where [getWeatherDescription] returns
    "Drizzle". *)
Lemma description_table_spec_53 :
  (53, "Moderate drizzle") ∈ spec_descriptions
  /\ getWeatherDescription (Some 53) = "Drizzle"
  /\ getWeatherDescription (Some 53) <> "Moderate drizzle".
Proof.
  split; [| split].
  - unfold spec_descriptions. rewrite !elem_of_cons. do 7 right. left. reflexivity.
  - vm_compute. reflexivity.
  - vm_compute. discriminate.
Qed.

(** C7: both tables have the same keys; a code that is not one of them
    gets the default glyph and the description "Unknown"; code 61 gets the
    rain glyph and "Light rain", code 200 the defaults. *)
Theorem unknown_code_defaults :
  dom iconMap = list_to_set table_codes
  /\ dom descriptions = list_to_set table_codes
  /\ (forall c : Z, c ∉ table_codes ->
        getWeatherIcon (Some c) = "🌤️"
        /\ getWeatherDescription (Some c) = "Unknown")
  /\ getWeatherIcon (Some 61) = "🌧️"
  /\ getWeatherDescription (Some 61) = "Light rain"
  /\ getWeatherIcon (Some 200) = "🌤️"
  /\ getWeatherDescription (Some 200) = "Unknown".
Proof.
  split; [exact iconMap_dom |]. split; [exact descriptions_dom |]. split.
  - intros c Hc. unfold getWeatherIcon, getWeatherDescription. simpl.
    rewrite (iconMap_miss c Hc), (descriptions_miss c Hc). split; reflexivity.
  - repeat split; vm_compute; reflexivity.
Qed.

Lemma unknown_code_defaults_witness :
  (200 ∉ table_codes)
  /\ getWeatherIcon (Some 200) = "🌤️"
  /\ getWeatherDescription (Some 200) = "Unknown".
Proof.
  assert (H : 200 ∉ table_codes).
  { unfold table_codes. rewrite !not_elem_of_cons. repeat split; try lia.
    apply not_elem_of_nil. }
  split; [exact H |].
  exact (proj1 (proj2 (proj2 unknown_code_defaults)) 200 H).
Defined.

(** ** The display *)

Lemma same_display_shown (w w' : widget) :
  same_display w w' -> shown w' = shown w.
Proof. intros (Hl & Hc & He). unfold shown. rewrite Hl, Hc, He. reflexivity. Qed.

Lemma getLocation_display (h : world) (w : widget) :
  same_display w (getLocation h w).1.
Proof.
  unfold getLocation.
  destruct (navigator_geolocation h) as [[la lo | e] |]; repeat split.
Qed.

Lemma fetchWeather_display (h : world) (w : widget) (la lo : JS.number) :
  same_display w (fetchWeather h w la lo).1.
Proof.
  unfold fetchWeather.
  destruct (fetch h _) as [| r]; [repeat split |].
  destruct (negb (ok r)); [repeat split |].
  destruct (json r); repeat split.
Qed.

Lemma displays_shown (w : widget) (s : DisplayState) :
  displays w s -> shown w = 1%nat.
Proof.
  unfold shown. destruct s; intros (Hl & Hc & He); cbn [List.filter];
    rewrite Hl, Hc, He; reflexivity.
Qed.

Lemma displays_unique (w : widget) (s s' : DisplayState) :
  displays w s -> displays w s' -> s = s'.
Proof.
  destruct s, s'; intros (Hl & Hc & He) (Hl' & Hc' & He');
    congruence.
Qed.

Lemma shown_displays (w : widget) :
  shown w = 1%nat -> exists s, displays w s.
Proof.
  unfold shown. cbn [List.filter].
  destruct (visible (loadingEl_display w)) eqn:Hl,
           (visible (contentEl_display w)) eqn:Hc,
           (visible (errorEl_display w)) eqn:He;
    simpl; intros H; try discriminate H.
  - exists Loading. repeat split; assumption.
  - exists Content. repeat split; assumption.
  - exists Failed. repeat split; assumption.
Qed.

(** A cycle ends in [Content] or in [Failed]. *)
Lemma init_displays (h : world) (w : widget) :
  displays (init h w) Content \/ displays (init h w) Failed.
Proof.
  unfold init.
  destruct (getLocation h (showLoading w)) as [w1 c].
  destruct (fetchWeather h w1 (lat c) (lon c)) as [w2 [weatherData | e]].
  - left. repeat split.
  - right. repeat split.
Qed.

Lemma init_suspended_shown (h : world) (w : widget) :
  Forall (fun w' => displays w' Loading) (init_suspended h w).
Proof.
  unfold init_suspended.
  pose proof (getLocation_display h (showLoading w)) as H1.
  destruct (getLocation h (showLoading w)) as [w2 c]. simpl in H1.
  pose proof (fetchWeather_display h w2 (lat c) (lon c)) as H2.
  destruct (fetchWeather h w2 (lat c) (lon c)) as [w3 r]. simpl in H2.
  destruct H1 as (Hl & Hc & He), H2 as (Hl' & Hc' & He').
  repeat (apply Forall_cons; split); [| | | apply Forall_nil; exact I];
    unfold displays; rewrite ?Hl', ?Hc', ?He', ?Hl, ?Hc, ?He; repeat split.
Qed.

(** C5: each of [showLoading], [showContent], [showError] leaves exactly
    its own element shown and the other two hidden, whatever the display
    was before; so does every state of a cycle and every state the widget
    reaches after its construction: exactly one element is shown. *)
Theorem display_exactly_one :
  (forall w : widget,
     displays (showLoading w) Loading
     /\ displays (showContent w) Content
     /\ displays (showError w) Failed)
  /\ (forall (w : widget) (s : DisplayState),
        displays w s ->
        shown w = 1%nat /\ forall s', displays w s' -> s' = s)
  /\ (forall (h : world) (w : widget),
        Forall (fun w' => exists s, displays w' s)
          (init_suspended h w ++ [init h w]))
  /\ (forall (pg : page) (o : options) (w : widget),
        reachable pg o w -> exists s, displays w s).
Proof.
  split; [| split; [| split]].
  - intros w. repeat split.
  - intros w s Hs. split; [exact (displays_shown w s Hs) |].
    intros s' Hs'. exact (displays_unique w s' s Hs' Hs).
  - intros h w. apply Forall_app. split.
    + eapply Forall_impl; [apply init_suspended_shown |].
      intros w' Hw'. exists Loading. exact Hw'.
    + apply Forall_cons. split; [| apply Forall_nil; exact I].
      destruct (init_displays h w); [exists Content | exists Failed]; assumption.
  - intros pg o w Hr. destruct Hr as [h | w w' Hw Hf].
    + unfold new_WeatherWidget.
      destruct (init_displays h (fields pg o)); [exists Content | exists Failed];
        assumption.
    + destruct Hf as [h w delay Hd].
      destruct (init_displays h w); [exists Content | exists Failed]; assumption.
Qed.

Lemma display_exactly_one_witness :
  displays (showError (fields plain_page no_options)) Failed
  /\ shown (showError (fields plain_page no_options)) = 1%nat
  /\ exists s, displays (new_WeatherWidget plain_page no_options offline) s.
Proof.
  pose proof display_exactly_one as (Hshow & Hone & _ & Hreach).
  pose proof (Hshow (fields plain_page no_options)) as (_ & _ & He).
  split; [exact He |]. split.
  - exact (proj1 (Hone _ _ He)).
  - exact (Hreach plain_page no_options _ (reachable_new plain_page no_options offline)).
Defined.

(** ** LocationResolver *)

(** C8: [getLocation] always resolves to coordinates: those of the device
    when it reports a position; the configured defaults, unchanged, when it
    reports an error (permission denied, position unavailable, timeout),
    the call having been made with a timeout of 5000 ms in both cases; and
    the configured defaults, with no call made at all, when the host has no
    geolocation. *)
Theorem getLocation_resolves (h : world) (w : widget) :
  let w' := (getLocation h w).1 in
  let c := (getLocation h w).2 in
  let defaults :=
    {| lat := defaultLat (the_config w); lon := defaultLon (the_config w) |} in
  the_config w' = the_config w
  /\ (forall la lo,
        navigator_geolocation h = Some (Position la lo) ->
        c = {| lat := la; lon := lo |}
        /\ geolocation_calls w' = (geolocation_calls w ++ [5000])%list)
  /\ (forall e,
        navigator_geolocation h = Some (PositionError e) ->
        c = defaults
        /\ geolocation_calls w' = (geolocation_calls w ++ [5000])%list)
  /\ (navigator_geolocation h = None -> c = defaults /\ w' = w).
Proof.
  unfold getLocation.
  destruct (navigator_geolocation h) as [[la lo | e] |]; simpl;
    (split; [reflexivity |]); repeat split; intros; simplify_eq; reflexivity.
Qed.

Lemma getLocation_resolves_witness :
  navigator_geolocation offline = Some (PositionError PERMISSION_DENIED)
  /\ (getLocation offline (fields plain_page no_options)).2
     = {| lat := JS.Fin 47.6062%Q; lon := JS.Fin (-122.3321)%Q |}.
Proof.
  split; [reflexivity |].
  pose proof (getLocation_resolves offline (fields plain_page no_options))
    as (_ & _ & Herr & _).
  exact (proj1 (Herr PERMISSION_DENIED eq_refl)).
Defined.

(** ** The refresh timer *)

Lemma getLocation_timers (h : world) (w : widget) :
  interval_timers (getLocation h w).1 = interval_timers w
  /\ the_config (getLocation h w).1 = the_config w.
Proof.
  unfold getLocation.
  destruct (navigator_geolocation h) as [[la lo | e] |]; split; reflexivity.
Qed.

Lemma fetchWeather_timers (h : world) (w : widget) (la lo : JS.number) :
  interval_timers (fetchWeather h w la lo).1 = interval_timers w
  /\ the_config (fetchWeather h w la lo).1 = the_config w.
Proof.
  unfold fetchWeather.
  destruct (fetch h _) as [| r]; [split; reflexivity |].
  destruct (negb (ok r)); [split; reflexivity |].
  destruct (json r); split; reflexivity.
Qed.

(** What a cycle does to the timers: it arms one more when it succeeds,
    and none when it fails. *)
Lemma init_timers (h : world) (w : widget) :
  interval_timers (init h w)
  = (interval_timers w
     ++ match cycle_result h w with
        | JS.Normal _ => [updateInterval (the_config w)]
        | JS.Throw _ => []
        end)%list.
Proof.
  unfold init, cycle_result.
  pose proof (getLocation_timers h (showLoading w)) as [H1 H1'].
  destruct (getLocation h (showLoading w)) as [w1 c]. simpl in H1, H1'.
  pose proof (fetchWeather_timers h w1 (lat c) (lon c)) as [H2 H2'].
  destruct (fetchWeather h w1 (lat c) (lon c)) as [w2 [weatherData | e]];
    simpl in *.
  - rewrite H2, H1, H2', H1'. reflexivity.
  - rewrite H2, H1, app_nil_r. reflexivity.
Qed.

(** C2 at its failing inputs.  Every cycle that succeeds arms a timer, and
    a cycle that fails arms none.  So with the network down at the first
    cycle no timer is armed, and no later cycle ever runs; with the network
    up the first cycle arms a timer, and the cycle this timer starts arms a
    second one on top of it. *)
Theorem refresh_timer_arming :
  (forall (h : world) (w : widget),
     interval_timers (init h w)
     = (interval_timers w
        ++ match cycle_result h w with
           | JS.Normal _ => [updateInterval (the_config w)]
           | JS.Throw _ => []
           end)%list)
  /\ interval_timers (new_WeatherWidget plain_page no_options offline) = []
  /\ (forall w', ~ fires (new_WeatherWidget plain_page no_options offline) w')
  /\ interval_timers (new_WeatherWidget plain_page no_options online)
     = [600000]
  /\ interval_timers
       (init online (new_WeatherWidget plain_page no_options online))
     = [600000; 600000].
Proof.
  assert (H0 : interval_timers (new_WeatherWidget plain_page no_options offline)
               = []) by (vm_compute; reflexivity).
  split; [exact init_timers |].
  split; [exact H0 |]. split; [| split].
  - intros w' Hf. inversion Hf as [h w delay Hd Hw Hw'].
    rewrite H0 in Hd. inversion Hd.
  - vm_compute. reflexivity.
  - vm_compute. reflexivity.
Qed.

(** ** WeatherClient: the transformation *)

(** When [getLocationName] returns: both coordinates are numbers. *)
Lemma getLocationName_Normal (lat lon : option JS.number) (name : string) :
  getLocationName lat lon = JS.Normal name <->
  exists la lo,
    lat = Some la /\ lon = Some lo
    /\ name =
       if JS.lt (JS.Math_abs (JS.sub la (JS.Fin 47.6062%Q))) (JS.Fin 0.1%Q)
          && JS.lt (JS.Math_abs (JS.sub lo (JS.Fin (-122.3321)%Q)))
                   (JS.Fin 0.1%Q)
       then "Seattle, WA"
       else JS.toFixed la 1 ++ "°, " ++ JS.toFixed lo 1 ++ "°".
Proof.
  unfold getLocationName. split.
  - destruct lat as [la |], lon as [lo |]; simpl.
    + intros H. exists la, lo. repeat split.
      destruct (_ && _); simpl in H; congruence.
    + rewrite andb_false_r. simpl. discriminate.
    + discriminate.
    + discriminate.
  - intros (la & lo & -> & -> & ->). simpl.
    destruct (_ && _); reflexivity.
Qed.

Lemma getLocationName_Throw (lat lon : option JS.number) (e : JS.error) :
  getLocationName lat lon = JS.Throw e ->
  e = JS.TypeError /\ (lat = None \/ lon = None).
Proof.
  unfold getLocationName.
  destruct lat as [la |], lon as [lo |]; simpl.
  - destruct (_ && _); simpl; discriminate.
  - rewrite andb_false_r. simpl. intros [= <-]. split; [reflexivity | now right].
  - intros [= <-]. split; [reflexivity | now left].
  - intros [= <-]. split; [reflexivity | now left].
Qed.

(** When [processWeatherData] returns, and what. *)
Lemma processWeatherData_Normal (data : body) (snap : snapshot) :
  processWeatherData data = JS.Normal snap <->
  exists cur hr dl hs rs ss name,
    current_weather data = Some cur
    /\ hourly data = Some hr /\ relative_humidity_2m hr = Some hs
    /\ daily data = Some dl /\ sunrise_f dl = Some rs /\ sunset_f dl = Some ss
    /\ getLocationName (latitude data) (longitude data) = JS.Normal name
    /\ snap =
       {| temperature := JS.Math_round (JS.ToNumber (temperature_f cur));
          windSpeed := JS.Math_round (JS.ToNumber (windspeed_f cur));
          windDirection := winddirection_f cur;
          weatherCode := weathercode_f cur;
          time := JS.Date_of (time_f cur);
          humidity := hs !! 0%nat;
          sunrise := JS.Date_of (rs !! 0%nat);
          sunset := JS.Date_of (ss !! 0%nat);
          location := name |}.
Proof.
  unfold processWeatherData. split.
  - destruct (current_weather data) as [cur |]; [| simpl; discriminate].
    destruct (hourly data) as [hr |]; [| simpl; discriminate].
    destruct (daily data) as [dl |];
      [| simpl; destruct (relative_humidity_2m hr); simpl; discriminate].
    simpl.
    destruct (relative_humidity_2m hr) as [hs |] eqn:Hhs; [| simpl; discriminate].
    destruct (sunrise_f dl) as [rs |] eqn:Hrs; [| simpl; discriminate].
    destruct (sunset_f dl) as [ss |] eqn:Hss; [| simpl; discriminate].
    simpl.
    destruct (getLocationName _ _) as [name | e]; [| simpl; discriminate].
    simpl. intros [= <-].
    exists cur, hr, dl, hs, rs, ss, name. repeat split; assumption.
  - intros (cur & hr & dl & hs & rs & ss & name
            & -> & -> & Hhs & -> & Hrs & Hss & Hname & ->).
    simpl. rewrite Hhs, Hrs, Hss. simpl. rewrite Hname. reflexivity.
Qed.


Lemma structure_present_Normal (data : body) :
  structure_present data = true <->
  exists snap, processWeatherData data = JS.Normal snap.
Proof.
  unfold structure_present, humidity_series, sunrise_series, sunset_series.
  split.
  - rewrite !andb_true_iff. intros (((((Hc & Hh) & Hr) & Hs) & Hla) & Hlo).
    destruct (current_weather data) as [cur |] eqn:Ecur; [| discriminate].
    destruct (hourly data) as [hr |] eqn:Ehr; [| discriminate].
    destruct (daily data) as [dl |] eqn:Edl; [| discriminate].
    simpl in Hh, Hr, Hs.
    destruct (relative_humidity_2m hr) as [hs |] eqn:Ehs; [| discriminate].
    destruct (sunrise_f dl) as [rs |] eqn:Ers; [| discriminate].
    destruct (sunset_f dl) as [ss |] eqn:Ess; [| discriminate].
    destruct (latitude data) as [la |] eqn:Ela; [| discriminate].
    destruct (longitude data) as [lo |] eqn:Elo; [| discriminate].
    eexists. apply processWeatherData_Normal.
    exists cur, hr, dl, hs, rs, ss. eexists.
    repeat (split; [eassumption || reflexivity |]).
    split; [| reflexivity].
    rewrite Ela, Elo. apply getLocationName_Normal.
    exists la, lo. repeat split.
  - intros (snap & H). apply processWeatherData_Normal in H.
    destruct H as (cur & hr & dl & hs & rs & ss & name
                   & -> & -> & Hhs & -> & Hrs & Hss & Hname & _).
    apply getLocationName_Normal in Hname.
    destruct Hname as (la & lo & -> & -> & _).
    simpl. rewrite Hhs, Hrs, Hss. reflexivity.
Qed.

Lemma Qfloor_half_bounds (q : Q) :
  (inject_Z (Qfloor (q + (1 # 2))) - q <= 1 # 2)%Q
  /\ (- (1 # 2) < inject_Z (Qfloor (q + (1 # 2))) - q)%Q.
Proof.
  pose proof (Qfloor_le (q + (1 # 2))) as Hle.
  pose proof (Qlt_floor (q + (1 # 2))) as Hlt.
  rewrite inject_Z_plus in Hlt. change (inject_Z 1) with 1%Q in Hlt.
  split; lra.
Qed.

Lemma Qfloor_half_nearest (q : Q) : nearest_integer (Qfloor (q + (1 # 2))) q.
Proof.
  intros k. destruct (Qfloor_half_bounds q) as [Hup Hlow].
  set (z := Qfloor (q + (1 # 2))) in *.
  assert (Hz : (Qabs (inject_Z z - q) <= 1 # 2)%Q).
  { apply Qabs_Qle_condition. split; lra. }
  destruct (Z.lt_trichotomy k z) as [Hk | [-> | Hk]].
  - assert (Hq : (inject_Z k <= inject_Z z - 1)%Q).
    { change 1%Q with (inject_Z 1). unfold Qminus.
      rewrite <- inject_Z_opp, <- inject_Z_plus, <- Zle_Qle. lia. }
    eapply Qle_trans; [exact Hz |].
    rewrite <- (Qabs_opp (inject_Z k - q)).
    eapply Qle_trans; [| apply Qle_Qabs]. lra.
  - apply Qle_refl.
  - assert (Hq : (inject_Z z + 1 <= inject_Z k)%Q).
    { change 1%Q with (inject_Z 1).
      rewrite <- inject_Z_plus, <- Zle_Qle. lia. }
    eapply Qle_trans; [exact Hz |].
    eapply Qle_trans; [| apply Qle_Qabs]. lra.
Qed.

(** [Math.round] of a finite number: an integer, closest to it, and the
    upper one of two that are equally close. *)
Lemma Math_round_Fin (q : Q) :
  exists z : Z,
    JS.Math_round (JS.Fin q) = JS.Fin (inject_Z z)
    /\ nearest_integer z q
    /\ (q - (1 # 2) < inject_Z z <= q + (1 # 2))%Q.
Proof.
  exists (Qfloor (q + (1 # 2))). split; [reflexivity |]. split.
  - apply Qfloor_half_nearest.
  - destruct (Qfloor_half_bounds q). split; lra.
Qed.

(** C6, as the code has it: in every snapshot that is built, each of the
    temperature and the wind speed is [Math.round] of its own reading,
    whatever the other reading is.  A reading the response gives as a
    finite number becomes an integer, one closest to the value given (for a
    value half-way between two integers, the upper one), so 21.6 becomes
    22; a reading the response lacks becomes [NaN], which is no integer. *)
Theorem rounded_readings (data : body) (cur : current_weather_t)
    (snap : snapshot) :
  current_weather data = Some cur ->
  processWeatherData data = JS.Normal snap ->
  (forall t : Q, temperature_f cur = Some (JS.Fin t) ->
     exists zt : Z,
       temperature snap = JS.Fin (inject_Z zt)
       /\ nearest_integer zt t
       /\ (t - (1 # 2) < inject_Z zt <= t + (1 # 2))%Q)
  /\ (forall ws : Q, windspeed_f cur = Some (JS.Fin ws) ->
        exists zw : Z,
          windSpeed snap = JS.Fin (inject_Z zw)
          /\ nearest_integer zw ws
          /\ (ws - (1 # 2) < inject_Z zw <= ws + (1 # 2))%Q)
  /\ (temperature_f cur = None -> temperature snap = JS.NaN)
  /\ (windspeed_f cur = None -> windSpeed snap = JS.NaN).
Proof.
  intros Hcur H. apply processWeatherData_Normal in H.
  destruct H as (cur' & hr & dl & hs & rs & ss & name
                 & Hcur' & _ & _ & _ & _ & _ & _ & ->).
  rewrite Hcur in Hcur'. injection Hcur' as <-.
  cbn [temperature windSpeed].
  split; [| split; [| split]].
  - intros t ->. exact (Math_round_Fin t).
  - intros ws ->. exact (Math_round_Fin ws).
  - intros ->. reflexivity.
  - intros ->. reflexivity.
Qed.

Lemma sample_body_processed :
  processWeatherData sample_body = JS.Normal sample_snapshot.
Proof. vm_compute. reflexivity. Qed.

Lemma body_without_temperature_processed :
  exists snap,
    processWeatherData body_without_temperature = JS.Normal snap
    /\ snap =
       {| temperature := JS.NaN;
          windSpeed := JS.Fin 7%Q;
          windDirection := Some (JS.Fin 230%Q);
          weatherCode := Some 61;
          time := JS.Date_of (Some "2024-05-01T12:00");
          humidity := Some (JS.Fin 65%Q);
          sunrise := JS.Date_of (Some "2024-05-01T05:52");
          sunset := JS.Date_of (Some "2024-05-01T20:21");
          location := "Seattle, WA" |}.
Proof. eexists. split; vm_compute; reflexivity. Qed.

Lemma rounded_readings_witness :
  processWeatherData sample_body = JS.Normal sample_snapshot
  /\ temperature sample_snapshot = JS.Fin 22%Q
  /\ (exists zt : Z,
        temperature sample_snapshot = JS.Fin (inject_Z zt)
        /\ nearest_integer zt 21.6%Q
        /\ (21.6 - (1 # 2) < inject_Z zt <= 21.6 + (1 # 2))%Q)
  /\ (exists zw : Z,
        windSpeed sample_snapshot = JS.Fin (inject_Z zw)
        /\ nearest_integer zw 7.4%Q
        /\ (7.4 - (1 # 2) < inject_Z zw <= 7.4 + (1 # 2))%Q)
  /\ exists snap,
       processWeatherData body_without_temperature = JS.Normal snap
       /\ temperature snap = JS.NaN
       /\ exists zw : Z,
            windSpeed snap = JS.Fin (inject_Z zw)
            /\ nearest_integer zw 7.4%Q
            /\ (7.4 - (1 # 2) < inject_Z zw <= 7.4 + (1 # 2))%Q.
Proof.
  pose proof (rounded_readings sample_body _ sample_snapshot
                eq_refl sample_body_processed) as (Ht & Hw & _ & _).
  split; [exact sample_body_processed |]. split; [reflexivity |].
  split; [exact (Ht 21.6%Q eq_refl) |]. split; [exact (Hw 7.4%Q eq_refl) |].
  destruct body_without_temperature_processed as (snap & Hp & _).
  pose proof (rounded_readings body_without_temperature _ snap
                eq_refl Hp) as (_ & Hw' & Hn & _).
  exists snap. split; [exact Hp |]. split; [exact (Hn eq_refl) |].
  exact (Hw' 7.4%Q eq_refl).
Defined.

(** C6, as the specification words it, fails: the response
    [body_without_temperature] gives a snapshot, and its temperature is
    [NaN], not an integer. *)
Lemma rounded_readings_every_response :
  exists snap,
    processWeatherData body_without_temperature = JS.Normal snap
    /\ temperature snap = JS.NaN
    /\ forall z : Z, temperature snap <> JS.Fin (inject_Z z).
Proof.
  destruct body_without_temperature_processed as (snap & Hp & ->).
  eexists. split; [exact Hp |]. split; [reflexivity |].
  intros z H. discriminate H.
Qed.

(** C9: for a body that has the structure [processWeatherData] reads, the
    snapshot is built, its humidity is the first element of the hourly
    relative-humidity series, whatever the hour of [current_weather.time]
    is, and its sunrise and sunset are the dates built from the first
    elements of the daily sunrise and sunset series. *)
Theorem first_elements (data : body) :
  structure_present data = true ->
  exists snap,
    processWeatherData data = JS.Normal snap
    /\ humidity snap = humidity_series data ≫= head
    /\ sunrise snap = JS.Date_of (sunrise_series data ≫= head)
    /\ sunset snap = JS.Date_of (sunset_series data ≫= head).
Proof.
  intros H. apply structure_present_Normal in H. destruct H as (snap & H).
  exists snap. split; [exact H |].
  apply processWeatherData_Normal in H.
  destruct H as (cur & hr & dl & hs & rs & ss & name
                 & _ & Hhr & Hhs & Hdl & Hrs & Hss & _ & ->).
  unfold humidity_series, sunrise_series, sunset_series.
  rewrite Hhr, Hdl. simpl. rewrite Hhs, Hrs, Hss. simpl.
  rewrite !head_lookup. repeat split.
Qed.

Lemma first_elements_witness :
  structure_present sample_body = true
  /\ exists snap,
       processWeatherData sample_body = JS.Normal snap
       /\ humidity snap = Some (JS.Fin 65%Q)
       /\ sunrise snap = JS.Date_of (Some "2024-05-01T05:52")
       /\ sunset snap = JS.Date_of (Some "2024-05-01T20:21").
Proof.
  split; [reflexivity |].
  exact (first_elements sample_body eq_refl).
Defined.

(** ** The location label *)

(** The band test of [getLocationName] on finite coordinates. *)
Lemma lt_abs_sub_Fin (x ref band : Q) :
  JS.lt (JS.Math_abs (JS.sub (JS.Fin x) (JS.Fin ref))) (JS.Fin band) = true
  <-> (Qabs (x - ref) < band)%Q.
Proof.
  change (negb (Qle_bool band (Qabs (x - ref))) = true
          <-> (Qabs (x - ref) < band)%Q).
  rewrite negb_true_iff. split.
  - intros H. apply Qnot_le_lt. intros Hle.
    apply Qle_bool_iff in Hle. congruence.
  - intros H. destruct (Qle_bool band (Qabs (x - ref))) eqn:E; [| reflexivity].
    apply Qle_bool_iff in E. apply Qlt_not_le in H. contradiction.
Qed.

(** When [fetchWeather] returns: the response is successful, its body is
    JSON, and [processWeatherData] returns on it. *)
Lemma fetchWeather_Normal (h : world) (w : widget) (lat lon : JS.number)
    (snap : snapshot) :
  (fetchWeather h w lat lon).2 = JS.Normal snap <->
  exists r data,
    fetch h (forecast_request w lat lon) = Resolved r
    /\ ok r = true /\ json r = Some data
    /\ processWeatherData data = JS.Normal snap.
Proof.
  unfold fetchWeather. split.
  - destruct (fetch h (forecast_request w lat lon)) as [| r]; [discriminate |].
    destruct (ok r) eqn:Eok; [| discriminate]. cbn [negb].
    destruct (json r) as [data |] eqn:Ej; [| discriminate].
    intros H. exists r, data. repeat split; assumption.
  - intros (r & data & -> & -> & -> & H). exact H.
Qed.

(** C3, as the code has it: the label is computed from the coordinates the
    response reports.  Within 0.1 degrees of latitude and of longitude of
    the fixed location 47.6062, -122.3321, it is "Seattle, WA", whatever
    defaults the widget was configured with; outside that band it is the
    two coordinates written with one decimal, each followed by the degree
    sign and separated by a comma and a space. *)
Theorem location_label (h : world) (w : widget) (lat lon : JS.number)
    (r : response) (data : body) (la lo : Q) (snap : snapshot) :
  fetch h (forecast_request w lat lon) = Resolved r ->
  json r = Some data ->
  latitude data = Some (JS.Fin la) ->
  longitude data = Some (JS.Fin lo) ->
  (fetchWeather h w lat lon).2 = JS.Normal snap ->
  ((Qabs (la - 47.6062) < 0.1)%Q /\ (Qabs (lo - (-122.3321)) < 0.1)%Q ->
   location snap = "Seattle, WA")
  /\ (~ ((Qabs (la - 47.6062) < 0.1)%Q /\ (Qabs (lo - (-122.3321)) < 0.1)%Q) ->
      JS.fixed_range (JS.Fin la) -> JS.fixed_range (JS.Fin lo) ->
      location snap
      = JS.toFixed (JS.Fin la) 1 ++ "°, " ++ JS.toFixed (JS.Fin lo) 1 ++ "°").
Proof.
  intros Ha Hj Hla Hlo H. apply fetchWeather_Normal in H.
  destruct H as (r' & data' & Ha' & _ & Hj' & H).
  assert (r' = r) as -> by congruence.
  assert (data' = data) as -> by congruence.
  apply processWeatherData_Normal in H.
  destruct H as (cur & hr & dl & hs & rs & ss & name
                 & _ & _ & _ & _ & _ & _ & Hname & ->).
  rewrite Hla, Hlo in Hname. apply getLocationName_Normal in Hname.
  destruct Hname as (la' & lo' & [= <-] & [= <-] & ->).
  cbn [location].
  destruct (JS.lt (JS.Math_abs (JS.sub (JS.Fin la) (JS.Fin 47.6062%Q)))
              (JS.Fin 0.1%Q)) eqn:E1;
    destruct (JS.lt (JS.Math_abs (JS.sub (JS.Fin lo) (JS.Fin (-122.3321)%Q)))
                (JS.Fin 0.1%Q)) eqn:E2;
    cbn [andb]; split; try reflexivity.
  - intros Hn. exfalso. apply Hn. split; apply lt_abs_sub_Fin; assumption.
  - intros [_ H2]. apply lt_abs_sub_Fin in H2. congruence.
  - intros [H1 _]. apply lt_abs_sub_Fin in H1. congruence.
  - intros [H1 _]. apply lt_abs_sub_Fin in H1. congruence.
Qed.

Lemma new_york_fetched :
  exists snap,
    (fetchWeather echoing (fields plain_page new_york_options)
       (JS.Fin 40.7128%Q) (JS.Fin (-74.006)%Q)).2 = JS.Normal snap
    /\ location snap = "40.7°, -74.0°".
Proof. eexists. split; vm_compute; reflexivity. Qed.

Lemma location_label_witness :
  (exists snap,
     (fetchWeather online (fields plain_page new_york_options)
        (JS.Fin 40.7128%Q) (JS.Fin (-74.006)%Q)).2 = JS.Normal snap
     /\ location snap = "Seattle, WA")
  /\ exists snap,
       (fetchWeather echoing (fields plain_page new_york_options)
          (JS.Fin 40.7128%Q) (JS.Fin (-74.006)%Q)).2 = JS.Normal snap
       /\ location snap
          = JS.toFixed (JS.Fin 40.7128%Q) 1 ++ "°, "
            ++ JS.toFixed (JS.Fin (-74.006)%Q) 1 ++ "°"
       /\ location snap = "40.7°, -74.0°".
Proof.
  split.
  - exists sample_snapshot. split; [vm_compute; reflexivity |].
    refine (proj1 (location_label online (fields plain_page new_york_options)
                     (JS.Fin 40.7128%Q) (JS.Fin (-74.006)%Q)
                     _ sample_body 47.6%Q (-122.3)%Q sample_snapshot
                     eq_refl eq_refl eq_refl eq_refl _) _).
    + vm_compute. reflexivity.
    + split; vm_compute; reflexivity.
  - destruct new_york_fetched as (snap & H & Hloc).
    exists snap. split; [exact H |]. split; [| exact Hloc].
    refine (proj2 (location_label echoing (fields plain_page new_york_options)
                     (JS.Fin 40.7128%Q) (JS.Fin (-74.006)%Q)
                     _ _ 40.7128%Q (-74.006)%Q snap
                     eq_refl eq_refl eq_refl eq_refl H) _ _ _).
    + intros [H1 _]. vm_compute in H1. discriminate H1.
    + vm_compute. reflexivity.
    + vm_compute. reflexivity.
Defined.

(** C3, as the specification words it, fails.  A widget configured with New
    York as its default location, on a host without geolocation, resolves
    to that default; the forecast reports these very coordinates, and the
    label is "40.7°, -74.0°", not the friendly label. *)
Lemma location_label_configured_default :
  let w := fields plain_page new_york_options in
  let c := (getLocation echoing w).2 in
  c = {| lat := defaultLat (the_config w); lon := defaultLon (the_config w) |}
  /\ c = {| lat := JS.Fin 40.7128%Q; lon := JS.Fin (-74.006)%Q |}
  /\ exists snap,
       (fetchWeather echoing w (lat c) (lon c)).2 = JS.Normal snap
       /\ location snap = "40.7°, -74.0°"
       /\ location snap <> "Seattle, WA".
Proof.
  split; [reflexivity |]. split; [reflexivity |].
  eexists. split; [vm_compute; reflexivity |].
  split; [reflexivity | discriminate].
Qed.

(** ** WeatherClient: errors *)







(** ** [lastUpdate] *)

Lemma getLocation_lastUpdate (h : world) (w : widget) :
  lastUpdate (getLocation h w).1 = lastUpdate w
  /\ apiUrl (getLocation h w).1 = apiUrl w
  /\ console_error (getLocation h w).1 = console_error w.
Proof.
  unfold getLocation.
  destruct (navigator_geolocation h) as [[la lo | e] |]; repeat split.
Qed.

(** C10: [fetchWeather] writes [lastUpdate] once the body has parsed as
    JSON, and not before: with a transport failure, an unsuccessful status
    or a body that is not JSON it leaves [lastUpdate] as it was, and with a
    parsed body it sets it to the time of the clock whatever
    [processWeatherData] then does.  So a cycle whose snapshot construction
    throws ends in the error state, the error logged, with [lastUpdate]
    already set. *)
Theorem lastUpdate_before_extraction :
  (forall (h : world) (w : widget) (lat lon : JS.number) (r : response)
          (data : body),
     fetch h (forecast_request w lat lon) = Resolved r ->
     ok r = true -> json r = Some data ->
     lastUpdate (fetchWeather h w lat lon).1 = Some (JS.Date_now (clock h))
     /\ (fetchWeather h w lat lon).2 = processWeatherData data)
  /\ (forall (h : world) (w : widget) (lat lon : JS.number),
        fetch h (forecast_request w lat lon) = Rejected
        \/ (exists r, fetch h (forecast_request w lat lon) = Resolved r
                      /\ (ok r = false \/ json r = None)) ->
        lastUpdate (fetchWeather h w lat lon).1 = lastUpdate w)
  /\ (forall (h : world) (w : widget) (r : response) (data : body)
             (e : JS.error),
        (forall req, fetch h req = Resolved r) ->
        ok r = true -> json r = Some data ->
        processWeatherData data = JS.Throw e ->
        lastUpdate (init h w) = Some (JS.Date_now (clock h))
        /\ displays (init h w) Failed
        /\ console_error (init h w) = (console_error w ++ [e])%list).
Proof.
  split; [| split].
  - intros h w la lo r data Ha Hok Hj. unfold fetchWeather.
    rewrite Ha, Hok, Hj. split; reflexivity.
  - intros h w la lo Hn. unfold fetchWeather.
    destruct Hn as [-> | (r & -> & Hr)]; [reflexivity |].
    destruct (ok r) eqn:Eok; [| reflexivity]. cbn [negb].
    destruct Hr as [Hr | ->]; [discriminate Hr | reflexivity].
  - intros h w r data e Ha Hok Hj He. unfold init.
    pose proof (getLocation_lastUpdate h (showLoading w)) as (_ & _ & Hc).
    destruct (getLocation h (showLoading w)) as [w1 c]. simpl in Hc.
    unfold fetchWeather. rewrite Ha, Hok, Hj, He. cbn [negb].
    cbn [lastUpdate showError set_display log_error set_lastUpdate
         console_error].
    rewrite Hc. repeat split.
Qed.

Lemma lastUpdate_before_extraction_witness :
  let h := delivering body_without_current in
  let w := fields plain_page no_options in
  lastUpdate w = None
  /\ processWeatherData body_without_current = JS.Throw JS.TypeError
  /\ lastUpdate (init h w) = Some (JS.Date_now 1714590000000)
  /\ displays (init h w) Failed.
Proof.
  cbv zeta. split; [reflexivity |]. split; [reflexivity |].
  pose proof (proj2 (proj2 lastUpdate_before_extraction)
                (delivering body_without_current)
                (fields plain_page no_options)
                {| status := 200; json := Some body_without_current |}
                body_without_current JS.TypeError
                (fun _ => eq_refl) eq_refl eq_refl eq_refl) as (H1 & H2 & _).
  split; [exact H1 | exact H2].
Defined.

(** * Further properties of the code *)

(** ** The lookup tables *)

Lemma table_codes_cases (c : Z) (P : Z -> Prop) :
  c ∈ table_codes ->
  Forall P table_codes -> P c.
Proof. intros Hc HP. rewrite Forall_forall in HP. exact (HP c Hc). Qed.

(** X1: [getWeatherDescription] answers "Unknown" for the codes that are
    not in the table, and for no code of the table. *)
Theorem description_unknown_iff (c : Z) :
  getWeatherDescription (Some c) = "Unknown" <-> c ∉ table_codes.
Proof.
  split.
  - intros H Hc. revert H. pattern c.
    apply (table_codes_cases c _ Hc).
    repeat (apply Forall_cons; split; [vm_compute; discriminate |]).
    apply Forall_nil. exact I.
  - intros Hc. unfold getWeatherDescription. simpl.
    rewrite (descriptions_miss c Hc). reflexivity.
Qed.

Lemma description_unknown_iff_witness :
  getWeatherDescription (Some 4) = "Unknown"
  /\ (getWeatherDescription (Some 3) = "Unknown" -> False).
Proof.
  split.
  - apply (proj2 (description_unknown_iff 4)).
    unfold table_codes. rewrite !not_elem_of_cons. repeat split; try lia.
    apply not_elem_of_nil.
  - intros H. apply (proj1 (description_unknown_iff 3) H).
    unfold table_codes. rewrite !elem_of_cons. do 3 right. left. reflexivity.
Defined.

(** X2: the default glyph of [getWeatherIcon] is also the glyph of code 1:
    the function answers it for code 1 and for the codes that are not in
    the table, and for no other code. *)
Theorem icon_default_iff (c : Z) :
  getWeatherIcon (Some c) = "🌤️" <-> c = 1 \/ c ∉ table_codes.
Proof.
  split.
  - intros H. destruct (decide (c ∈ table_codes)) as [Hc | Hc]; [| now right].
    left. revert H. pattern c. apply (table_codes_cases c _ Hc).
    repeat (apply Forall_cons; split;
            [vm_compute; first [discriminate | reflexivity] |]).
    apply Forall_nil. exact I.
  - intros [-> | Hc]; [vm_compute; reflexivity |].
    unfold getWeatherIcon. simpl. rewrite (iconMap_miss c Hc). reflexivity.
Qed.

Lemma icon_default_iff_witness :
  getWeatherIcon (Some 1) = "🌤️" /\ getWeatherIcon (Some 7) = "🌤️".
Proof.
  split.
  - exact (proj2 (icon_default_iff 1) (or_introl eq_refl)).
  - apply (proj2 (icon_default_iff 7)). right.
    unfold table_codes. rewrite !not_elem_of_cons. repeat split; try lia.
    apply not_elem_of_nil.
Defined.

(** X3: for every code of the table [getWeatherIcon] returns the glyph the
    source lists for it, and the codes listed are those of the table of
    descriptions. *)
Theorem icon_table :
  Forall (fun row => getWeatherIcon (Some row.1) = row.2) icon_rows
  /\ icon_rows.*1 = table_codes
  /\ dom iconMap = dom descriptions.
Proof.
  split; [| split].
  - unfold icon_rows.
    repeat (apply Forall_cons; split; [vm_compute; reflexivity |]).
    apply Forall_nil. exact I.
  - reflexivity.
  - rewrite iconMap_dom, descriptions_dom. reflexivity.
Qed.

(** ** One cycle *)

(** What [getLocation] and [fetchWeather] do to the widget. *)
Lemma getLocation_widget (h : world) (w : widget) :
  (getLocation h w).1
  = if present (navigator_geolocation h) then getCurrentPosition 5000 w else w.
Proof.
  unfold getLocation.
  destruct (navigator_geolocation h) as [[la lo | e] |]; reflexivity.
Qed.

Lemma fetchWeather_widget (h : world) (w : widget) (la lo : JS.number) :
  (fetchWeather h w la lo).1 = w
  \/ (fetchWeather h w la lo).1 = set_lastUpdate (JS.Date_now (clock h)) w.
Proof.
  unfold fetchWeather.
  destruct (fetch h _) as [| r]; [now left |].
  destruct (negb (ok r)); [now left |].
  destruct (json r); [now right | now left].
Qed.

(** The request depends on the widget through [apiUrl] only. *)
Lemma forecast_request_apiUrl (w w' : widget) (la lo : JS.number) :
  apiUrl w = apiUrl w' -> forecast_request w la lo = forecast_request w' la lo.
Proof. intros H. unfold forecast_request. rewrite H. reflexivity. Qed.

Lemma fetchWeather_apiUrl (h : world) (w w' : widget) (la lo : JS.number) :
  apiUrl w = apiUrl w' ->
  (fetchWeather h w la lo).2 = (fetchWeather h w' la lo).2.
Proof.
  intros H. unfold fetchWeather.
  rewrite (forecast_request_apiUrl w w' la lo H).
  destruct (fetch h _) as [| r]; [reflexivity |].
  destruct (negb (ok r)); [reflexivity |].
  destruct (json r); reflexivity.
Qed.

Lemma getLocation_apiUrl (h : world) (w : widget) :
  apiUrl (getLocation h w).1 = apiUrl w.
Proof. rewrite getLocation_widget. destruct (present _); reflexivity. Qed.

(** [init], in terms of the coordinates it resolves and of what it
    fetches. *)
Lemma init_unfold (h : world) (w : widget) :
  let w1 := (getLocation h (showLoading w)).1 in
  let c := (getLocation h (showLoading w)).2 in
  let w2 := (fetchWeather h w1 (lat c) (lon c)).1 in
  cycle_result h w = (fetchWeather h w1 (lat c) (lon c)).2
  /\ init h w
     = match cycle_result h w with
       | JS.Normal weatherData =>
           setupAutoRefresh (showContent (render h weatherData w2))
       | JS.Throw e => showError (log_error e w2)
       end.
Proof.
  unfold init, cycle_result.
  destruct (getLocation h (showLoading w)) as [w1 c]. cbn [fst snd].
  destruct (fetchWeather h w1 (lat c) (lon c)) as [w2 r]. cbn [fst snd].
  split; [reflexivity |]. destruct r; reflexivity.
Qed.

(** The coordinates a cycle asks the forecast for. *)
Lemma cycle_result_request (h : world) (w : widget) :
  cycle_result h w
  = (fetchWeather h w (lat (getLocation h w).2) (lon (getLocation h w).2)).2.
Proof.
  destruct (init_unfold h w) as [-> _].
  assert (Hc : (getLocation h (showLoading w)).2 = (getLocation h w).2).
  { unfold getLocation.
    destruct (navigator_geolocation h) as [[la lo | e] |]; reflexivity. }
  rewrite Hc. apply fetchWeather_apiUrl.
  rewrite getLocation_apiUrl. reflexivity.
Qed.

(** X4: a cycle whose forecast arrives ends in the content state with the
    view of that snapshot as content, stamped with the time of rendering;
    nothing is logged, one timer with the configured interval is armed on
    top of those there were, and [lastUpdate] is the time of the fetch. *)
Theorem cycle_success (h : world) (w : widget) (weatherData : snapshot) :
  cycle_result h w = JS.Normal weatherData ->
  displays (init h w) Content
  /\ contentEl_innerHTML (init h w) = Some (view_of h weatherData)
  /\ console_error (init h w) = console_error w
  /\ interval_timers (init h w)
     = (interval_timers w ++ [updateInterval (the_config w)])%list
  /\ lastUpdate (init h w) = Some (JS.Date_now (clock h)).
Proof.
  intros Hr. destruct (init_unfold h w) as [Hc ->]. rewrite Hr.
  rewrite Hr in Hc. symmetry in Hc.
  apply fetchWeather_Normal in Hc.
  destruct Hc as (r & data & Ha & Hok & Hj & _).
  set (w1 := (getLocation h (showLoading w)).1) in *.
  set (c := (getLocation h (showLoading w)).2) in *.
  assert (Hw2 : (fetchWeather h w1 (lat c) (lon c)).1
                = set_lastUpdate (JS.Date_now (clock h)) w1).
  { unfold fetchWeather. rewrite Ha, Hok, Hj. reflexivity. }
  rewrite Hw2. unfold w1. rewrite getLocation_widget.
  destruct (present (navigator_geolocation h)); repeat split.
Qed.

Lemma cycle_success_witness :
  displays (init online (fields plain_page no_options)) Content
  /\ contentEl_innerHTML (init online (fields plain_page no_options))
     = Some {| view_location := "Seattle, WA";
               view_time := "12:00 PM";
               view_temperature := JS.Fin 22%Q;
               view_icon := "🌧️";
               view_description := "Light rain";
               view_humidity := Some (JS.Fin 65%Q);
               view_windSpeed := JS.Fin 7%Q |}.
Proof.
  assert (H : cycle_result online (fields plain_page no_options)
              = JS.Normal sample_snapshot) by (vm_compute; reflexivity).
  pose proof (cycle_success online (fields plain_page no_options)
                sample_snapshot H) as (Hd & Hv & _).
  split; [exact Hd | exact Hv].
Defined.

(** X5: a cycle whose forecast fails ends in the error state; the content
    of the panel is left as the last successful cycle wrote it, the error
    is logged once, and no timer is armed or removed. *)
Theorem cycle_failure (h : world) (w : widget) (e : JS.error) :
  cycle_result h w = JS.Throw e ->
  displays (init h w) Failed
  /\ contentEl_innerHTML (init h w) = contentEl_innerHTML w
  /\ console_error (init h w) = (console_error w ++ [e])%list
  /\ interval_timers (init h w) = interval_timers w.
Proof.
  intros Hr. destruct (init_unfold h w) as [_ ->]. rewrite Hr.
  set (w1 := (getLocation h (showLoading w)).1).
  set (c := (getLocation h (showLoading w)).2).
  destruct (fetchWeather_widget h w1 (lat c) (lon c)) as [-> | ->];
    unfold w1; rewrite getLocation_widget;
    destruct (present (navigator_geolocation h)); repeat split.
Qed.

Lemma cycle_failure_witness :
  displays (init offline (init online (fields plain_page no_options))) Failed
  /\ contentEl_innerHTML
       (init offline (init online (fields plain_page no_options)))
     = contentEl_innerHTML (init online (fields plain_page no_options))
  /\ console_error
       (init offline (init online (fields plain_page no_options)))
     = [JS.TypeError].
Proof.
  assert (H : cycle_result offline (init online (fields plain_page no_options))
              = JS.Throw JS.TypeError) by (vm_compute; reflexivity).
  pose proof (cycle_failure offline (init online (fields plain_page no_options))
                JS.TypeError H) as (Hd & Hv & Hc & _).
  split; [exact Hd |]. split; [exact Hv |]. exact Hc.
Defined.

(** X6: when the device gives no position (no geolocation, or any of its
    errors) and the network answers the request for the configured default
    coordinates with a successful response whose body has the structure
    [processWeatherData] reads, the cycle succeeds: it ends in the content
    state, showing the snapshot of that body. *)
Theorem fallback_cycle_succeeds (h : world) (w : widget) (r : response)
    (data : body) :
  (forall la lo, navigator_geolocation h <> Some (Position la lo)) ->
  fetch h (forecast_request w (defaultLat (the_config w))
             (defaultLon (the_config w))) = Resolved r ->
  ok r = true -> json r = Some data -> structure_present data = true ->
  exists weatherData,
    processWeatherData data = JS.Normal weatherData
    /\ cycle_result h w = JS.Normal weatherData
    /\ displays (init h w) Content
    /\ contentEl_innerHTML (init h w) = Some (view_of h weatherData).
Proof.
  intros Hgeo Ha Hok Hj Hs.
  apply structure_present_Normal in Hs. destruct Hs as (weatherData & Hp).
  exists weatherData. split; [exact Hp |].
  assert (Hr : cycle_result h w = JS.Normal weatherData).
  { rewrite cycle_result_request.
    assert (Hc : (getLocation h w).2
                 = {| lat := defaultLat (the_config w);
                      lon := defaultLon (the_config w) |}).
    { unfold getLocation.
      destruct (navigator_geolocation h) as [[la lo | e] |];
        [exfalso; exact (Hgeo la lo eq_refl) | reflexivity | reflexivity]. }
    rewrite Hc. cbn [lat lon]. apply fetchWeather_Normal.
    exists r, data. repeat split; assumption. }
  split; [exact Hr |].
  destruct (init_unfold h w) as [_ Hi].
  rewrite Hr in Hi. rewrite Hi. split; [repeat split | reflexivity].
Qed.

Lemma fallback_cycle_succeeds_witness :
  exists weatherData,
    processWeatherData sample_body = JS.Normal weatherData
    /\ cycle_result online (fields plain_page no_options)
       = JS.Normal weatherData
    /\ displays (init online (fields plain_page no_options)) Content
    /\ contentEl_innerHTML (init online (fields plain_page no_options))
       = Some (view_of online weatherData).
Proof.
  refine (fallback_cycle_succeeds online (fields plain_page no_options)
            {| status := 200; json := Some sample_body |} sample_body
            _ eq_refl eq_refl eq_refl eq_refl).
  intros la lo H. discriminate H.
Defined.

(** ** Many cycles *)

Lemma init_config (h : world) (w : widget) :
  the_config (init h w) = the_config w /\ apiUrl (init h w) = apiUrl w.
Proof.
  destruct (init_unfold h w) as [_ ->].
  set (w1 := (getLocation h (showLoading w)).1).
  set (c := (getLocation h (showLoading w)).2).
  destruct (fetchWeather_widget h w1 (lat c) (lon c)) as [-> | ->];
    unfold w1; rewrite getLocation_widget;
    destruct (present (navigator_geolocation h)), (cycle_result h w);
    split; reflexivity.
Qed.

Lemma init_geolocation_calls (h : world) (w : widget) :
  geolocation_calls (init h w)
  = (geolocation_calls w
     ++ if present (navigator_geolocation h) then [5000] else [])%list.
Proof.
  destruct (init_unfold h w) as [_ ->].
  set (w1 := (getLocation h (showLoading w)).1).
  set (c := (getLocation h (showLoading w)).2).
  destruct (fetchWeather_widget h w1 (lat c) (lon c)) as [-> | ->];
    unfold w1; rewrite getLocation_widget;
    destruct (present (navigator_geolocation h)), (cycle_result h w);
    cbn; rewrite ?app_nil_r; reflexivity.
Qed.

(** The forecast of a cycle does not depend on the cycles before it. *)
Lemma cycle_result_config (h : world) (w w' : widget) :
  the_config w = the_config w' -> apiUrl w = apiUrl w' ->
  cycle_result h w = cycle_result h w'.
Proof.
  intros Hc Hu. rewrite !cycle_result_request.
  assert (He : (getLocation h w).2 = (getLocation h w').2).
  { unfold getLocation.
    destruct (navigator_geolocation h) as [[la lo | e] |];
      cbn; rewrite ?Hc; reflexivity. }
  rewrite He. apply fetchWeather_apiUrl. exact Hu.
Qed.

(** X7: through all its cycles the widget keeps the configuration and the
    address it was built with; every timer it has armed has the configured
    interval, and every geolocation call it has made has a timeout of
    5000 ms. *)
Theorem widget_invariants (pg : page) (o : options) (w : widget) :
  reachable pg o w ->
  the_config w = make_config o
  /\ apiUrl w = "https://api.open-meteo.com/v1/forecast"
  /\ Forall (fun delay => delay = updateInterval (make_config o))
        (interval_timers w)
  /\ Forall (fun timeout => timeout = 5000) (geolocation_calls w).
Proof.
  assert (Hstep : forall h w0,
    (the_config w0 = make_config o
     /\ apiUrl w0 = "https://api.open-meteo.com/v1/forecast"
     /\ Forall (fun delay => delay = updateInterval (make_config o))
          (interval_timers w0)
     /\ Forall (fun timeout => timeout = 5000) (geolocation_calls w0)) ->
    (the_config (init h w0) = make_config o
     /\ apiUrl (init h w0) = "https://api.open-meteo.com/v1/forecast"
     /\ Forall (fun delay => delay = updateInterval (make_config o))
          (interval_timers (init h w0))
     /\ Forall (fun timeout => timeout = 5000)
          (geolocation_calls (init h w0)))).
  { intros h w0 (Hc & Hu & Ht & Hg).
    destruct (init_config h w0) as [Hc' Hu'].
    rewrite Hc', Hu', init_timers, init_geolocation_calls, Hc.
    split; [reflexivity |]. split; [exact Hu |]. split.
    - apply Forall_app. split; [exact Ht |].
      destruct (cycle_result h w0); [| apply Forall_nil; exact I].
      apply Forall_cons. split; [reflexivity | apply Forall_nil; exact I].
    - apply Forall_app. split; [exact Hg |].
      destruct (present (navigator_geolocation h)); [| apply Forall_nil; exact I].
      apply Forall_cons. split; [reflexivity | apply Forall_nil; exact I]. }
  induction 1 as [h | w w' Hw IH Hf].
  - apply Hstep. repeat split; apply Forall_nil; exact I.
  - destruct Hf as [h w delay Hd]. apply Hstep. exact IH.
Qed.

Lemma widget_invariants_witness :
  the_config (init online (new_WeatherWidget plain_page new_york_options online))
  = make_config new_york_options
  /\ Forall (fun delay => delay = 600000)
       (interval_timers
          (init online (new_WeatherWidget plain_page new_york_options online))).
Proof.
  assert (Hr : reachable plain_page new_york_options
                 (init online
                    (new_WeatherWidget plain_page new_york_options online))).
  { eapply reachable_fires; [apply reachable_new |].
    apply (fires_init online _ 600000). vm_compute.
    apply list_elem_of_here. }
  pose proof (widget_invariants plain_page new_york_options _ Hr)
    as (Hc & _ & Ht & _).
  split; [exact Hc | exact Ht].
Defined.

Lemma run_config (hs : list world) (w : widget) :
  the_config (run hs w) = the_config w /\ apiUrl (run hs w) = apiUrl w.
Proof.
  revert w. induction hs as [| h hs IH]; intros w; [split; reflexivity |].
  cbn [run fold_left]. fold (run hs (init h w)).
  destruct (IH (init h w)) as [-> ->]. apply init_config.
Qed.

(** X8: after any sequence of cycles the widget has armed as many timers
    more as cycles succeeded, all still armed: their number only grows. *)
Theorem timers_count_successes (hs : list world) (w : widget) :
  length (interval_timers (run hs w))
  = (length (interval_timers w)
     + length (List.filter (fun h => returned (cycle_result h w)) hs))%nat.
Proof.
  revert w. induction hs as [| h hs IH]; intros w.
  - cbn. lia.
  - cbn [run fold_left]. fold (run hs (init h w)). rewrite IH.
    destruct (init_config h w) as [Hc Hu].
    assert (Hf : List.filter (fun h0 => returned (cycle_result h0 (init h w))) hs
                 = List.filter (fun h0 => returned (cycle_result h0 w)) hs).
    { apply List.filter_ext. intros h0.
      rewrite (cycle_result_config h0 (init h w) w Hc Hu). reflexivity. }
    rewrite Hf, init_timers, length_app. cbn [List.filter].
    destruct (cycle_result h w); cbn; lia.
Qed.

(** X9: the forecast of a cycle depends on the widget through its address
    and its default coordinates only, and not even on these when the device
    reports a position: the configured units, the refresh interval and
    everything earlier cycles left behind have no influence on it. *)
Theorem cycle_result_depends (h : world) (w w' : widget) :
  apiUrl w = apiUrl w' ->
  (defaultLat (the_config w) = defaultLat (the_config w')
   /\ defaultLon (the_config w) = defaultLon (the_config w'))
  \/ (exists la lo, navigator_geolocation h = Some (Position la lo)) ->
  cycle_result h w = cycle_result h w'.
Proof.
  intros Hu Hd. rewrite !cycle_result_request.
  assert (He : (getLocation h w).2 = (getLocation h w').2).
  { unfold getLocation.
    destruct Hd as [[Hla Hlo] | (la & lo & ->)]; [| reflexivity].
    destruct (navigator_geolocation h) as [[la lo | e] |];
      cbn; rewrite ?Hla, ?Hlo; reflexivity. }
  rewrite He. apply fetchWeather_apiUrl. exact Hu.
Qed.

Lemma cycle_result_depends_witness :
  cycle_result online
    (fields plain_page
       {| opt_defaultLat := None; opt_defaultLon := None;
          opt_units := Some "fahrenheit"; opt_updateInterval := Some 1000 |})
  = cycle_result online (init offline (fields plain_page no_options)).
Proof.
  apply cycle_result_depends; [reflexivity |].
  left. split; reflexivity.
Defined.

(** What a cycle does to [lastUpdate]: it sets it to the time of the clock
    when it gets a body, and leaves it alone when it does not. *)
Lemma init_lastUpdate (h : world) (w : widget) :
  lastUpdate (init h w)
  = if body_parsed h w then Some (JS.Date_now (clock h)) else lastUpdate w.
Proof.
  destruct (init_unfold h w) as [_ ->].
  assert (Hc : (getLocation h (showLoading w)).2 = (getLocation h w).2).
  { unfold getLocation.
    destruct (navigator_geolocation h) as [[la lo | e] |]; reflexivity. }
  assert (Hl : lastUpdate (getLocation h (showLoading w)).1 = lastUpdate w).
  { rewrite getLocation_widget. destruct (present _); reflexivity. }
  assert (Hu : apiUrl (getLocation h (showLoading w)).1 = apiUrl w).
  { rewrite getLocation_apiUrl. reflexivity. }
  unfold body_parsed. rewrite <- Hc.
  set (w1 := (getLocation h (showLoading w)).1) in *.
  set (c := (getLocation h (showLoading w)).2) in *.
  rewrite <- (forecast_request_apiUrl w1 w (lat c) (lon c) Hu).
  assert (Hw2 : lastUpdate (fetchWeather h w1 (lat c) (lon c)).1
                = match fetch h (forecast_request w1 (lat c) (lon c)) with
                  | Resolved r =>
                      if ok r && present (json r)
                      then Some (JS.Date_now (clock h)) else lastUpdate w
                  | Rejected => lastUpdate w
                  end).
  { unfold fetchWeather.
    destruct (fetch h (forecast_request w1 (lat c) (lon c))) as [| r];
      [exact Hl |].
    destruct (ok r); cbn [negb andb]; [| exact Hl].
    destruct (json r); [reflexivity | exact Hl]. }
  assert (Hi : forall w2 : widget,
             lastUpdate
               match cycle_result h w with
               | JS.Normal weatherData =>
                   setupAutoRefresh (showContent (render h weatherData w2))
               | JS.Throw e => showError (log_error e w2)
               end = lastUpdate w2).
  { intros w2. destruct (cycle_result h w); reflexivity. }
  rewrite Hi, Hw2.
  destruct (fetch h (forecast_request w1 (lat c) (lon c))); reflexivity.
Qed.

Lemma body_parsed_config (h : world) (w w' : widget) :
  the_config w = the_config w' -> apiUrl w = apiUrl w' ->
  body_parsed h w = body_parsed h w'.
Proof.
  intros Hc Hu. unfold body_parsed.
  assert (He : (getLocation h w).2 = (getLocation h w').2).
  { unfold getLocation.
    destruct (navigator_geolocation h) as [[la lo | e] |];
      cbn; rewrite ?Hc; reflexivity. }
  rewrite He, (forecast_request_apiUrl w w' _ _ Hu). reflexivity.
Qed.

(** X10: [lastUpdate] is written by the cycles that get a body (a
    successful response whose body is JSON), and by nothing else.  After
    any sequence of cycles it is the time at which the last of them that
    got a body fetched, and it is what it was before when none of them got
    one: it is never cleared. *)
Theorem lastUpdate_history (hs : list world) (w : widget) :
  lastUpdate (run hs w)
  = match last (List.filter (fun h => body_parsed h w) hs) with
    | Some h => Some (JS.Date_now (clock h))
    | None => lastUpdate w
    end.
Proof.
  revert w. induction hs as [| h hs IH]; intros w; [reflexivity |].
  cbn [run fold_left]. fold (run hs (init h w)). rewrite IH.
  destruct (init_config h w) as [Hc Hu].
  assert (Hf : List.filter (fun h0 => body_parsed h0 (init h w)) hs
               = List.filter (fun h0 => body_parsed h0 w) hs).
  { apply List.filter_ext. intros h0.
    apply body_parsed_config; assumption. }
  rewrite Hf, init_lastUpdate. cbn [List.filter].
  destruct (body_parsed h w);
    destruct (List.filter (fun h0 => body_parsed h0 w) hs) as [| x l];
    try reflexivity.
  change (last (h :: x :: l)) with (last (x :: l)).
  destruct (last (x :: l)) as [y |] eqn:E; [reflexivity |].
  apply last_None in E. discriminate E.
Qed.

Lemma lastUpdate_history_example :
  lastUpdate (run [online; offline] (fields plain_page no_options))
  = Some (JS.Date_now 1714590000000)
  /\ lastUpdate (run [offline; answering 503] (fields plain_page no_options))
     = None.
Proof. split; vm_compute; reflexivity. Qed.

(** X11: every cycle calls [getCurrentPosition] once when the host has
    geolocation and not at all when it has none, whatever becomes of the
    cycle: after a sequence of cycles the calls made are as many as the
    cycles run on a host with geolocation. *)
Theorem geolocation_calls_count (hs : list world) (w : widget) :
  length (geolocation_calls (run hs w))
  = (length (geolocation_calls w)
     + length (List.filter (fun h => present (navigator_geolocation h)) hs))%nat.
Proof.
  revert w. induction hs as [| h hs IH]; intros w.
  - cbn. lia.
  - cbn [run fold_left]. fold (run hs (init h w)).
    rewrite IH, init_geolocation_calls, length_app. cbn [List.filter].
    destruct (present (navigator_geolocation h)); cbn; lia.
Qed.

(** ** The transformation *)

(** X12: [getLocationName] throws exactly when one of the coordinates is
    [undefined], also when the other one lies in the band of the friendly
    label, and what it throws is a [TypeError]. *)
Theorem getLocationName_throws_iff (lat lon : option JS.number) (e : JS.error) :
  getLocationName lat lon = JS.Throw e
  <-> e = JS.TypeError /\ (lat = None \/ lon = None).
Proof.
  split; [apply getLocationName_Throw |].
  intros [-> H]. unfold getLocationName.
  destruct lat as [la |], lon as [lo |]; cbn.
  - destruct H; discriminate.
  - rewrite andb_false_r. reflexivity.
  - reflexivity.
  - reflexivity.
Qed.

Lemma getLocationName_throws_iff_witness :
  getLocationName (Some (JS.Fin 47.6062%Q)) None = JS.Throw JS.TypeError.
Proof.
  apply (proj2 (getLocationName_throws_iff _ _ _)).
  split; [reflexivity | now right].
Defined.

(** X13: when a coordinate is [NaN] or infinite the test of the band
    fails: the name is made of the two coordinates as [toFixed] writes
    them, "NaN", "Infinity" or "-Infinity" for the one that is not finite,
    the other one being below 10^21 in absolute value when it is finite. *)
Theorem getLocationName_not_finite (la lo : JS.number) :
  (forall q, la <> JS.Fin q) \/ (forall q, lo <> JS.Fin q) ->
  JS.fixed_range la -> JS.fixed_range lo ->
  getLocationName (Some la) (Some lo)
  = JS.Normal (JS.toFixed la 1 ++ "°, " ++ JS.toFixed lo 1 ++ "°").
Proof.
  intros H _ _. unfold getLocationName.
  assert (Hb : JS.lt (JS.Math_abs (JS.sub (JS.ToNumber (Some la))
                                      (JS.Fin 47.6062%Q))) (JS.Fin 0.1%Q)
               && JS.lt (JS.Math_abs (JS.sub (JS.ToNumber (Some lo))
                                         (JS.Fin (-122.3321)%Q)))
                        (JS.Fin 0.1%Q) = false).
  { destruct H as [H | H].
    - destruct la as [| sg | q]; [reflexivity | reflexivity |].
      exfalso. exact (H q eq_refl).
    - apply andb_false_iff. right.
      destruct lo as [| sg | q]; [reflexivity | reflexivity |].
      exfalso. exact (H q eq_refl). }
  rewrite Hb. reflexivity.
Qed.

Lemma getLocationName_not_finite_witness :
  getLocationName (Some JS.NaN) (Some (JS.Fin (-122.3321)%Q))
  = JS.Normal "NaN°, -122.3°".
Proof.
  refine (eq_trans
            (getLocationName_not_finite JS.NaN (JS.Fin (-122.3321)%Q) _ _ _) _).
  - left. intros q H. discriminate H.
  - exact I.
  - vm_compute. reflexivity.
  - vm_compute. reflexivity.
Defined.




Lemma take_1_lookup_0 {A} (l : list A) : take 1 l !! 0%nat = l !! 0%nat.
Proof. destruct l; reflexivity. Qed.

(** X15: [processWeatherData] reads nothing of the three series but their
    first elements: cutting every series down to its first element changes
    neither the snapshot nor the error. *)
Theorem processWeatherData_first_only (data : body) :
  processWeatherData (first_only data) = processWeatherData data.
Proof.
  unfold processWeatherData, first_only. cbn [current_weather hourly daily
    latitude longitude].
  destruct (current_weather data) as [cur |]; [| reflexivity].
  destruct (hourly data) as [hr |]; [| reflexivity].
  destruct (daily data) as [dl |]; cbn;
    destruct (relative_humidity_2m hr) as [hs |]; cbn; try reflexivity.
  destruct (sunrise_f dl) as [rs |]; cbn; [| reflexivity].
  destruct (sunset_f dl) as [ss |]; cbn; [| reflexivity].
  rewrite !take_1_lookup_0. reflexivity.
Qed.

(** ** Decimal digits *)

Module Digits.

Import Decimal.

Lemma digit_cases (b : N) :
  (b < 10)%N ->
  (b = 0 \/ b = 1 \/ b = 2 \/ b = 3 \/ b = 4 \/ b = 5 \/ b = 6 \/ b = 7
   \/ b = 8 \/ b = 9)%N.
Proof. lia. Qed.

Lemma of_lu_to_lu (a : N) :
  DecimalPos.Unsigned.of_lu (DecimalPos.Unsigned.to_lu a) = a.
Proof.
  destruct a as [| p]; [reflexivity |].
  cbn [DecimalPos.Unsigned.to_lu].
  rewrite <- DecimalPos.Unsigned.of_lu_rev.
  exact (DecimalPos.Unsigned.of_to p).
Qed.

Lemma nztail_to_lu (a : N) :
  (0 < a)%N ->
  DecimalFacts.nztail (DecimalPos.Unsigned.to_lu a) = DecimalPos.Unsigned.to_lu a
  /\ DecimalPos.Unsigned.to_lu a <> Nil.
Proof.
  intros Ha.
  pose proof (DecimalPos.Unsigned.to_of_lu (DecimalPos.Unsigned.to_lu a)) as H.
  rewrite of_lu_to_lu in H. unfold DecimalFacts.lnorm in H.
  destruct (DecimalFacts.nztail (DecimalPos.Unsigned.to_lu a)) eqn:E.
  1: { exfalso. pose proof (of_lu_to_lu a) as Ho. rewrite H in Ho.
       cbn in Ho. lia. }
  all: split; [symmetry; exact H | rewrite H; discriminate].
Qed.

Lemma to_lu_snoc (a b : N) :
  (0 < a)%N -> (b < 10)%N ->
  DecimalPos.Unsigned.to_lu (10 * a + b) = Dn b (DecimalPos.Unsigned.to_lu a).
Proof.
  intros Ha Hb. destruct (nztail_to_lu a Ha) as [Hnz Hnil].
  set (la := DecimalPos.Unsigned.to_lu a) in *.
  assert (Ho : DecimalPos.Unsigned.of_lu (Dn b la) = (10 * a + b)%N).
  { rewrite DecimalPos.Unsigned.of_lu_eqn.
    assert (Hh : DecimalPos.Unsigned.hd (Dn b la) = b
                 /\ DecimalPos.Unsigned.tl (Dn b la) = la).
    { destruct (digit_cases b Hb) as [-> | [-> | [-> | [-> | [-> | [-> | [-> |
        [-> | [-> | ->]]]]]]]]]; split; reflexivity. }
    destruct Hh as [-> ->]. unfold la. rewrite of_lu_to_lu. lia. }
  rewrite <- Ho, DecimalPos.Unsigned.to_of_lu. unfold DecimalFacts.lnorm.
  assert (Hn : DecimalFacts.nztail (Dn b la) = Dn b la).
  { destruct (digit_cases b Hb) as [-> | [-> | [-> | [-> | [-> | [-> | [-> |
      [-> | [-> | ->]]]]]]]]]; cbn [Dn DecimalFacts.nztail]; rewrite Hnz;
      try reflexivity.
    destruct la; [contradiction | reflexivity ..]. }
  rewrite Hn.
  destruct (digit_cases b Hb) as [-> | [-> | [-> | [-> | [-> | [-> | [-> |
    [-> | [-> | ->]]]]]]]]]; reflexivity.
Qed.

Lemma append_cons (c : ascii) (s t : string) :
  String c s ++ t = String c (s ++ t).
Proof. reflexivity. Qed.

Lemma append_assoc (s t u : string) : (s ++ t) ++ u = s ++ t ++ u.
Proof.
  induction s as [| c s IH]; [reflexivity |].
  rewrite !append_cons, IH. reflexivity.
Qed.

Lemma length_append (s t : string) :
  String.length (s ++ t) = (String.length s + String.length t)%nat.
Proof.
  induction s as [| c s IH]; [reflexivity |].
  rewrite append_cons. cbn [String.length]. rewrite IH. reflexivity.
Qed.

Lemma string_of_revapp (d d' : uint) :
  NilEmpty.string_of_uint (revapp d d')
  = NilEmpty.string_of_uint (rev d) ++ NilEmpty.string_of_uint d'.
Proof.
  revert d'. unfold rev.
  induction d as [| d IH | d IH | d IH | d IH | d IH | d IH | d IH | d IH
                  | d IH | d IH]; intros d'; [reflexivity | ..];
    cbn [revapp]; rewrite IH; symmetry; rewrite IH;
    rewrite append_assoc; reflexivity.
Qed.

Lemma string_of_uint_nonnil (d : uint) :
  d <> Nil -> NilZero.string_of_uint d = NilEmpty.string_of_uint d.
Proof. destruct d; [contradiction | reflexivity ..]. Qed.

Lemma to_uint_rev (n : N) :
  (0 < n)%N -> N.to_uint n = rev (DecimalPos.Unsigned.to_lu n).
Proof. destruct n; [lia | reflexivity]. Qed.

Lemma to_uint_nonnil (n : N) : N.to_uint n <> Nil.
Proof.
  destruct n as [| p]; [discriminate |].
  apply DecimalPos.Unsigned.to_uint_nonnil.
Qed.

(** The digits of [10 a + b] are those of [a] followed by the digit [b]. *)
Lemma digits_snoc (a b : N) :
  (0 < a)%N -> (b < 10)%N ->
  JS.digits (10 * a + b) = JS.digits a ++ JS.digits b.
Proof.
  intros Ha Hb. unfold JS.digits.
  rewrite (to_uint_rev (10 * a + b)) by lia.
  rewrite (to_lu_snoc a b Ha Hb).
  assert (Hr : rev (Dn b (DecimalPos.Unsigned.to_lu a))
               = revapp (DecimalPos.Unsigned.to_lu a) (Dn b Nil)).
  { destruct (digit_cases b Hb) as [-> | [-> | [-> | [-> | [-> | [-> | [-> |
      [-> | [-> | ->]]]]]]]]]; reflexivity. }
  rewrite Hr. rewrite string_of_uint_nonnil.
  2:{ intros E. apply DecimalFacts.revapp_nil_inv in E. destruct E as [_ E].
      destruct (digit_cases b Hb) as [-> | [-> | [-> | [-> | [-> | [-> | [-> |
        [-> | [-> | ->]]]]]]]]]; discriminate E. }
  rewrite string_of_revapp.
  rewrite <- (to_uint_rev a Ha).
  rewrite (string_of_uint_nonnil (N.to_uint a)) by apply to_uint_nonnil.
  f_equal.
  destruct (digit_cases b Hb) as [-> | [-> | [-> | [-> | [-> | [-> | [-> |
    [-> | [-> | ->]]]]]]]]]; reflexivity.
Qed.

Lemma digits_length_digit (b : N) :
  (b < 10)%N -> String.length (JS.digits b) = 1%nat.
Proof.
  intros Hb.
  destruct (digit_cases b Hb) as [-> | [-> | [-> | [-> | [-> | [-> | [-> |
    [-> | [-> | ->]]]]]]]]]; reflexivity.
Qed.

Lemma digits_nonempty (n : N) : (1 <= String.length (JS.digits n))%nat.
Proof.
  unfold JS.digits. pose proof (to_uint_nonnil n) as H.
  destruct (N.to_uint n); [contradiction | cbn; lia ..].
Qed.

(** Reading the digits back gives the number. *)
Lemma digits_inj (n m : N) : JS.digits n = JS.digits m -> n = m.
Proof.
  unfold JS.digits. intros H.
  apply DecimalN.Unsigned.to_uint_inj.
  pose proof (NilZero.usu (N.to_uint n) (to_uint_nonnil n)) as Hn.
  pose proof (NilZero.usu (N.to_uint m) (to_uint_nonnil m)) as Hm.
  rewrite H in Hn. congruence.
Qed.

Lemma substring_whole (t : string) : substring 0 (String.length t) t = t.
Proof.
  induction t as [| c t IH]; [reflexivity |].
  cbn [String.length substring]. rewrite IH. reflexivity.
Qed.

Lemma substring_prefix (s t : string) :
  substring 0 (String.length s) (s ++ t) = s.
Proof.
  induction s as [| c s IH].
  - destruct t; reflexivity.
  - rewrite append_cons. cbn [String.length substring]. rewrite IH.
    reflexivity.
Qed.

Lemma substring_suffix (s t : string) :
  substring (String.length s) (String.length t) (s ++ t) = t.
Proof.
  induction s as [| c s IH]; [apply substring_whole |].
  rewrite append_cons. cbn [String.length substring]. exact IH.
Qed.

End Digits.

Lemma append_inj_l (p s t : string) : p ++ s = p ++ t -> s = t.
Proof.
  induction p as [| c p IH]; [exact (fun H => H) |].
  rewrite !Digits.append_cons. intros [= H]. exact (IH H).
Qed.

(** X16: what [toFixed(1)] writes for a finite number below 10^21.  With
    [n] the integer closest to ten times the absolute value (the upper one
    when two are equally close), it is a minus sign when the number is
    negative, also when [n] is 0, then the digits of [n / 10], a point, and
    the digit [n mod 10]. *)
Theorem toFixed_one_decimal (x : Q) :
  JS.fixed_range (JS.Fin x) ->
  let n := Z.to_N (Qfloor (Qabs x * 10 + (1 # 2))) in
  JS.toFixed (JS.Fin x) 1
  = (if Qle_bool 0 x then "" else "-")
    ++ JS.digits (n / 10) ++ "." ++ JS.digits (n mod 10)
  /\ (Qabs x * 10 - (1 # 2) < inject_Z (Z.of_N n) <= Qabs x * 10 + (1 # 2))%Q.
Proof.
  intros _. cbv zeta. split.
  - unfold JS.toFixed.
    change (inject_Z (10 ^ Z.of_nat 1)) with 10%Q.
    set (n := Z.to_N (Qfloor (Qabs x * 10 + (1 # 2)))).
    assert (Hm : (let m := JS.digits n in
                  let k := String.length m in
                  let m := if (k <=? 1)%nat then JS.zeros (1 + 1 - k) ++ m
                           else m in
                  let k := String.length m in
                  substring 0 (k - 1) m ++ "." ++ substring (k - 1) 1 m)
                 = JS.digits (n / 10) ++ "." ++ JS.digits (n mod 10)).
    { cbv zeta. destruct (N.lt_ge_cases n 10) as [Hn | Hn].
      - rewrite (N.div_small n 10 Hn), (N.mod_small n 10 Hn).
        pose proof (Digits.digits_length_digit n Hn) as Hl.
        rewrite Hl. cbn [Nat.leb Nat.sub Nat.add JS.zeros].
        destruct (JS.digits n) as [| c [| c' s]]; try discriminate Hl.
        reflexivity.
      - assert (Ha : (0 < n / 10)%N).
        { apply N.div_str_pos. lia. }
        assert (Hb : (n mod 10 < 10)%N) by (apply N.mod_lt; lia).
        assert (En : n = (10 * (n / 10) + n mod 10)%N)
          by (apply N.div_mod'; lia).
        set (a := (n / 10)%N) in *. set (b := (n mod 10)%N) in *.
        rewrite En, (Digits.digits_snoc a b Ha Hb).
        pose proof (Digits.digits_nonempty a) as Hla.
        pose proof (Digits.digits_length_digit b Hb) as Hlb.
        rewrite Digits.length_append, Hlb.
        destruct (Nat.leb_spec (String.length (JS.digits a) + 1) 1);
          [lia |].
        rewrite Digits.length_append, Hlb.
        replace (String.length (JS.digits a) + 1 - 1)%nat
          with (String.length (JS.digits a)) by lia.
        rewrite Digits.substring_prefix.
        rewrite <- Hlb at 1. rewrite Digits.substring_suffix. reflexivity. }
    cbv zeta in Hm. rewrite Hm.
    destruct (Qle_bool 0 x); reflexivity.
  - assert (H0 : 0 <= Qfloor (Qabs x * 10 + (1 # 2))).
    { change 0 with (Qfloor 0). apply Qfloor_resp_le.
      pose proof (Qabs_nonneg x). lra. }
    rewrite Z2N.id by exact H0.
    pose proof (Qfloor_le (Qabs x * 10 + (1 # 2))) as Hle.
    pose proof (Qlt_floor (Qabs x * 10 + (1 # 2))) as Hlt.
    rewrite inject_Z_plus in Hlt. change (inject_Z 1) with 1%Q in Hlt.
    split; lra.
Qed.

Lemma toFixed_one_decimal_witness :
  JS.toFixed (JS.Fin (-0.04)%Q) 1 = "-0.0"
  /\ JS.toFixed (JS.Fin 9.96%Q) 1
     = "" ++ JS.digits (100 / 10) ++ "." ++ JS.digits (100 mod 10).
Proof.
  split.
  - refine (eq_trans (proj1 (toFixed_one_decimal (-0.04)%Q _)) _);
      vm_compute; reflexivity.
  - refine (eq_trans (proj1 (toFixed_one_decimal 9.96%Q _)) _);
      vm_compute; reflexivity.
Defined.

(** X17: the [Error] thrown for an unsuccessful response tells the status:
    two responses with different statuses never give the same error. *)
Theorem status_error_tells_status (h h' : world) (w w' : widget)
    (la lo la' lo' : JS.number) (r r' : response) :
  fetch h (forecast_request w la lo) = Resolved r ->
  fetch h' (forecast_request w' la' lo') = Resolved r' ->
  ok r = false -> ok r' = false ->
  0 <= status r -> 0 <= status r' ->
  status r <> status r' ->
  (fetchWeather h w la lo).2 <> (fetchWeather h' w' la' lo').2.
Proof.
  intros Ha Ha' Hok Hok' Hs Hs' Hne. unfold fetchWeather.
  rewrite Ha, Ha', Hok, Hok'. cbn [negb snd]. intros [= H].
  apply append_inj_l, Digits.digits_inj in H.
  apply Z2N.inj in H; [contradiction | assumption | assumption].
Qed.

Lemma status_error_tells_status_witness :
  (fetchWeather (answering 404) (fields plain_page no_options)
     (JS.Fin 47.6062%Q) (JS.Fin (-122.3321)%Q)).2
  <> (fetchWeather (answering 500) (fields plain_page no_options)
        (JS.Fin 47.6062%Q) (JS.Fin (-122.3321)%Q)).2.
Proof.
  apply (status_error_tells_status (answering 404) (answering 500) _ _ _ _ _ _
           {| status := 404; json := None |} {| status := 500; json := None |});
    try reflexivity; try discriminate.
Defined.

(** X18: the widget the page builds on [DOMContentLoaded] has no options.
    When the device gives no position it asks for the forecast of 47.6062,
    -122.3321, and if the response reports coordinates within 0.1 degrees
    of these, as it does when it reports the ones asked for, the panel is
    headed "Seattle, WA". *)
Theorem page_fallback_label (pg : page) (h : world) (r : response)
    (data : body) (la lo : Q) :
  (forall la lo, navigator_geolocation h <> Some (Position la lo)) ->
  fetch h (forecast_request (fields pg no_options)
             (JS.Fin 47.6062%Q) (JS.Fin (-122.3321)%Q)) = Resolved r ->
  ok r = true -> json r = Some data -> structure_present data = true ->
  latitude data = Some (JS.Fin la) -> longitude data = Some (JS.Fin lo) ->
  (Qabs (la - 47.6062) < 0.1)%Q -> (Qabs (lo - (-122.3321)) < 0.1)%Q ->
  exists v,
    contentEl_innerHTML (on_DOMContentLoaded pg h) = Some v
    /\ view_location v = "Seattle, WA"
    /\ displays (on_DOMContentLoaded pg h) Content.
Proof.
  intros Hgeo Ha Hok Hj Hs Hla Hlo Bla Blo.
  apply structure_present_Normal in Hs. destruct Hs as (weatherData & Hp).
  assert (Hr : cycle_result h (fields pg no_options) = JS.Normal weatherData).
  { rewrite cycle_result_request.
    assert (Hc : (getLocation h (fields pg no_options)).2
                 = {| lat := JS.Fin 47.6062%Q; lon := JS.Fin (-122.3321)%Q |}).
    { unfold getLocation.
      destruct (navigator_geolocation h) as [[la' lo' | e] |];
        [exfalso; exact (Hgeo la' lo' eq_refl) | reflexivity | reflexivity]. }
    rewrite Hc. cbn [lat lon]. apply fetchWeather_Normal.
    exists r, data. repeat split; assumption. }
  unfold on_DOMContentLoaded, new_WeatherWidget.
  destruct (init_unfold h (fields pg no_options)) as [_ Hi].
  rewrite Hr in Hi. rewrite Hi.
  eexists. split; [reflexivity |]. split; [| repeat split].
  cbn [view_location].
  apply processWeatherData_Normal in Hp.
  destruct Hp as (cur & hr & dl & hs & rs & ss & name
                  & _ & _ & _ & _ & _ & _ & Hname & ->).
  cbn [location]. rewrite Hla, Hlo in Hname.
  apply getLocationName_Normal in Hname.
  destruct Hname as (la' & lo' & [= <-] & [= <-] & ->).
  apply lt_abs_sub_Fin in Bla, Blo. rewrite Bla, Blo. reflexivity.
Qed.

Lemma page_fallback_label_witness :
  exists v,
    contentEl_innerHTML (on_DOMContentLoaded plain_page online) = Some v
    /\ view_location v = "Seattle, WA"
    /\ displays (on_DOMContentLoaded plain_page online) Content.
Proof.
  refine (page_fallback_label plain_page online
            {| status := 200; json := Some sample_body |} sample_body
            47.6%Q (-122.3)%Q _ eq_refl eq_refl eq_refl eq_refl eq_refl eq_refl
            _ _).
  - intros la lo H. discriminate H.
  - vm_compute. reflexivity.
  - vm_compute. reflexivity.
Defined.

(** ** The first cycle *)

(** X19: a widget whose first cycle fails never runs another one: it has
    armed no timer, so nothing ever calls [init] again. *)
Theorem first_failure_is_final (pg : page) (o : options) (h : world)
    (e : JS.error) :
  cycle_result h (fields pg o) = JS.Throw e ->
  interval_timers (new_WeatherWidget pg o h) = []
  /\ forall w', ~ fires (new_WeatherWidget pg o h) w'.
Proof.
  intros Hr.
  assert (H0 : interval_timers (new_WeatherWidget pg o h) = []).
  { unfold new_WeatherWidget. rewrite init_timers, Hr. reflexivity. }
  split; [exact H0 |].
  intros w' Hf. inversion Hf as [h' w delay Hd Hw Hw'].
  rewrite H0 in Hd. inversion Hd.
Qed.

Lemma first_failure_is_final_witness :
  interval_timers (new_WeatherWidget plain_page new_york_options (answering 503))
  = [].
Proof.
  refine (proj1 (first_failure_is_final plain_page new_york_options
                   (answering 503) (JS.Error "Weather API error: 503") _)).
  vm_compute. reflexivity.
Defined.

(** X20: when the device reports a position, the forecast of the cycle is
    the one fetched for exactly these coordinates, whatever defaults are
    configured. *)
Theorem device_position_requested (h : world) (w : widget) (la lo : JS.number) :
  navigator_geolocation h = Some (Position la lo) ->
  cycle_result h w = (fetchWeather h w la lo).2
  /\ req_latitude (forecast_request w la lo) = la
  /\ req_longitude (forecast_request w la lo) = lo.
Proof.
  intros Hg. split; [| split; reflexivity].
  rewrite cycle_result_request. unfold getLocation. rewrite Hg. reflexivity.
Qed.

Lemma device_position_requested_witness :
  cycle_result
    {| navigator_geolocation :=
         Some (Position (JS.Fin 40.7128%Q) (JS.Fin (-74.006)%Q));
       fetch := fetch echoing;
       clock := clock echoing;
       toLocaleTimeString := toLocaleTimeString echoing |}
    (fields plain_page no_options)
  = (fetchWeather echoing (fields plain_page no_options)
       (JS.Fin 40.7128%Q) (JS.Fin (-74.006)%Q)).2.
Proof.
  exact (proj1 (device_position_requested
                  {| navigator_geolocation :=
                       Some (Position (JS.Fin 40.7128%Q) (JS.Fin (-74.006)%Q));
                     fetch := fetch echoing;
                     clock := clock echoing;
                     toLocaleTimeString := toLocaleTimeString echoing |}
                  (fields plain_page no_options) _ _ eq_refl)).
Defined.
